(** * ebook123: a shallow embedding of the catalogue bot

    The development follows the three source modules that carry the
    behaviour of the bot:

    - [utils.py]    : [clean_title], [create_pagination_keyboard],
                      [format_search_results];
    - [database.py] : the [ebooks] and [advertisements] tables and the
                      methods of [Database] working on them;
    - [handlers.py] : [handle_pagination] and [handle_document].

    Python strings are sequences of Unicode code points, so a string is a
    list of code points ([N]).  Everything the interpreter takes from the
    Unicode character database (which characters are alphanumeric, which
    are white space, how two characters compare when case is ignored, how a
    string is lower-cased) is an interface, [UnicodeDB]; the LIKE operator
    of the SQL engine is the interface [SqlEngine].  Executable ASCII
    instances of both are given so that every definition can be run.

    SQLite errors ([sqlite3.Error]) are not modelled: every method is
    embedded along its fault-free path.  The one exception a method lets
    through on its own arguments, the [OverflowError] of an integer
    parameter beyond 64 bits, is [search_books_overflows]. *)

From Stdlib Require Import String Ascii.
From Stdlib Require Import List Bool Arith ZArith NArith Lia Permutation Sorted.
Import ListNotations.

Set Implicit Arguments.

(* ================================================================== *)
(** ** Strings *)
(* ================================================================== *)

Definition char := N.
Definition str := list char.

(** An ASCII literal of the source as a list of code points. *)
Definition lit (s : string) : str :=
  map N_of_ascii (list_ascii_of_string s).

Definition str_eqb (a b : str) : bool :=
  if list_eq_dec N.eq_dec a b then true else false.

(** Named code points used by the source. *)
Definition SPACE : char := 32%N.
Definition HYPHEN : char := 45%N.
Definition DOT : char := 46%N.
Definition UNDERSCORE : char := 95%N.
Definition NEWLINE : char := 10%N.
Definition PERCENT : char := 37%N.

(** What the interpreter reads from the Unicode character database. *)
Class UnicodeDB := {
  (** [str.isalnum] on one character: the non-underscore part of [\w]. *)
  py_isalnum : char -> bool;
  (** [str.isspace] on one character: [\s], and the separators of
      [str.split()]. *)
  py_isspace : char -> bool;
  (** [sre_ci_eq p c]: the pattern letter [p] matches the character [c]
      under [re.IGNORECASE]. *)
  sre_ci_eq : char -> char -> bool;
  (** [str.lower]. *)
  py_lower : str -> str;
  (** The decimal value of a digit character, [None] for any other
      character: what [int] reads a non-ASCII digit as. *)
  py_todecimal : char -> option N
}.

(** The LIKE operator of the storage engine: [sql_like pattern text]. *)
Class SqlEngine := {
  sql_like : str -> str -> bool
}.

(** *** ASCII instances *)

Definition in_range (lo hi c : N) : bool := ((lo <=? c) && (c <=? hi))%N.

Definition ascii_isalnum (c : char) : bool :=
  in_range 48 57 c || in_range 65 90 c || in_range 97 122 c.

Definition ascii_isspace (c : char) : bool :=
  in_range 9 13 c || in_range 28 32 c.

Definition ascii_lower_char (c : char) : char :=
  if in_range 65 90 c then (c + 32)%N else c.

Definition ascii_ci_eq (p c : char) : bool :=
  (ascii_lower_char c =? ascii_lower_char p)%N.

Fixpoint ascii_like (pat s : str) : bool :=
  match pat with
  | [] => match s with [] => true | _ => false end
  | p :: pat' =>
      if (p =? PERCENT)%N then
        (fix star (t : str) : bool :=
           ascii_like pat' t ||
           match t with [] => false | _ :: t' => star t' end) s
      else
        match s with
        | [] => false
        | c :: s' => ((p =? UNDERSCORE)%N || ascii_ci_eq p c) && ascii_like pat' s'
        end
  end.

Definition ascii_todecimal (c : char) : option N :=
  if in_range 48 57 c then Some (c - 48)%N else None.

Definition ascii_db : UnicodeDB := {|
  py_isalnum := ascii_isalnum;
  py_isspace := ascii_isspace;
  sre_ci_eq := ascii_ci_eq;
  py_lower := map ascii_lower_char;
  py_todecimal := ascii_todecimal
|}.

Definition ascii_engine : SqlEngine := {| sql_like := ascii_like |}.

(* ================================================================== *)
(** ** utils.py: clean_title *)
(* ================================================================== *)

Section CleanTitle.
Context {U : UnicodeDB}.

(** [\w]. *)
Definition is_word (c : char) : bool :=
  py_isalnum c || (c =? UNDERSCORE)%N.

(** The character class [[^\w\s\-]] is every character that [keeps]
    rejects. *)
Definition keeps (c : char) : bool :=
  is_word c || py_isspace c || (c =? HYPHEN)%N.

(** A literal of the pattern matched at the head of [s] with case
    ignored; the rest of [s] after the match. *)
Fixpoint match_literal (pat s : str) : option str :=
  match pat with
  | [] => Some s
  | p :: pat' =>
      match s with
      | [] => None
      | c :: s' => if sre_ci_eq p c then match_literal pat' s' else None
      end
  end.

(** [$] without [re.MULTILINE]: the end of the string, or just before a
    newline that ends the string. *)
Definition at_end (s : str) : bool :=
  match s with
  | [] => true
  | [c] => (c =? NEWLINE)%N
  | _ => false
  end.

Definition extensions : list str :=
  [lit "pdf"; lit "epub"; lit "mobi"; lit "txt"].

(** The alternatives of [(pdf|epub|mobi|txt)$] tried in order. *)
Fixpoint match_alternatives (alts : list str) (s : str) : option str :=
  match alts with
  | [] => None
  | a :: alts' =>
      match match_literal a s with
      | Some rest => if at_end rest then Some rest
                     else match_alternatives alts' s
      | None => match_alternatives alts' s
      end
  end.

(** [\.(pdf|epub|mobi|txt)$] matched at the head of [s]. *)
Definition match_extension (s : str) : option str :=
  match s with
  | c :: s' => if (c =? DOT)%N then match_alternatives extensions s'
               else None
  | [] => None
  end.

(** [re.sub(r'\.(pdf|epub|mobi|txt)$', '', title, flags=re.IGNORECASE)]:
    the leftmost match is removed.  What follows a match is empty or one
    newline, where the pattern cannot match again. *)
Fixpoint strip_extension (s : str) : str :=
  match s with
  | [] => []
  | c :: s' =>
      match match_extension s with
      | Some rest => rest
      | None => c :: strip_extension s'
      end
  end.

(** [re.sub(r'[^\w\s\-]', ' ', title)]. *)
Definition replace_special (s : str) : str :=
  map (fun c => if keeps c then c else SPACE) s.

(** [title.split()]: the maximal runs of characters that are not white
    space. *)
Fixpoint split_whitespace (s : str) : list str :=
  match s with
  | [] => []
  | c :: s' =>
      if py_isspace c then split_whitespace s'
      else
        match s' with
        | [] => [[c]]
        | d :: _ =>
            if py_isspace d then [c] :: split_whitespace s'
            else
              match split_whitespace s' with
              | w :: ws => (c :: w) :: ws
              | [] => [[c]]
              end
        end
  end.

(** [sep.join(parts)]. *)
Fixpoint join (sep : str) (parts : list str) : str :=
  match parts with
  | [] => []
  | [p] => p
  | p :: ps => p ++ sep ++ join sep ps
  end.

Definition clean_title (title : str) : str :=
  let title := strip_extension title in
  let title := replace_special title in
  join [SPACE] (split_whitespace title).

End CleanTitle.

(* ================================================================== *)
(** ** Integers and strings: str(int), int(str), str.split(sep, n) *)
(* ================================================================== *)

(** The decimal digits of [n], most significant first, in front of [acc]. *)
Fixpoint digits_of (fuel : nat) (n : N) (acc : str) : str :=
  match fuel with
  | O => acc
  | S fuel' =>
      let acc' := (48 + n mod 10)%N :: acc in
      if (n / 10 =? 0)%N then acc' else digits_of fuel' (n / 10)%N acc'
  end.

(** A number has no more decimal digits than binary ones. *)
Definition str_of_N (n : N) : str :=
  digits_of (S (N.to_nat (N.size n))) n [].

(** [str(z)] for a Python [int]. *)
Definition str_of_Z (z : Z) : str :=
  if (z <? 0)%Z then HYPHEN :: str_of_N (Z.to_N (- z)) else str_of_N (Z.to_N z).

Definition digit_value (c : char) : option N :=
  if in_range 48 57 c then Some (c - 48)%N else None.

Fixpoint parse_digits (acc : N) (s : str) : option N :=
  match s with
  | [] => Some acc
  | c :: s' =>
      match digit_value c with
      | Some d => parse_digits (10 * acc + d)%N s'
      | None => None
      end
  end.

Definition parse_number (s : str) : option N :=
  match s with
  | [] => None
  | _ => parse_digits 0%N s
  end.

Fixpoint drop_while (f : char -> bool) (s : str) : str :=
  match s with
  | [] => []
  | c :: s' => if f c then drop_while f s' else s
  end.

(** The digits of an integer literal after its first digit: digits, each
    possibly after one underscore; an underscore is never last and never
    follows another one. *)
Fixpoint grouped_digits (acc : N) (s : str) : option N :=
  match s with
  | [] => Some acc
  | c :: s' =>
      if (c =? UNDERSCORE)%N then
        match s' with
        | [] => None
        | d :: s'' =>
            match digit_value d with
            | Some v => grouped_digits (10 * acc + v)%N s''
            | None => None
            end
        end
      else
        match digit_value c with
        | Some v => grouped_digits (10 * acc + v)%N s'
        | None => None
        end
  end.

(** A decimal literal: at least one digit, and a digit first. *)
Definition int_literal (s : str) : option N :=
  match s with
  | [] => None
  | c :: s' =>
      match digit_value c with
      | Some v => grouped_digits v s'
      | None => None
      end
  end.

(** [isspace] of the C locale, which [int] skips around the number. *)
Definition c_isspace (c : char) : bool :=
  in_range 9 13 c || (c =? SPACE)%N.

Section PyInt.
Context {U : UnicodeDB}.

(** [str.strip()]. *)
Definition strip (s : str) : str :=
  rev (drop_while py_isspace (rev (drop_while py_isspace s))).

(** [int(s)] goes in two steps.  First every character is brought to
    ASCII: a character below 127 stays, white space from 127 on becomes a
    space, a decimal digit from 127 on becomes the ASCII digit of its
    value, and anything else makes the string invalid. *)
Definition ascii_of_char (c : char) : option char :=
  if (c <? 127)%N then Some c
  else if py_isspace c then Some SPACE
  else option_map (fun d => (48 + d)%N) (py_todecimal c).

Fixpoint ascii_of_str (s : str) : option str :=
  match s with
  | [] => Some []
  | c :: s' =>
      match ascii_of_char c, ascii_of_str s' with
      | Some a, Some r => Some (a :: r)
      | _, _ => None
      end
  end.

(** Then the ASCII string is read: white space of the C locale, an
    optional sign, the digits, white space, and nothing more. *)
Definition long_from_string (s : str) : option Z :=
  match drop_while c_isspace s with
  | [] => None
  | c :: s' =>
      let literal (t : str) := int_literal (rev (drop_while c_isspace (rev t))) in
      if (c =? HYPHEN)%N then option_map (fun n => (- Z.of_N n)%Z) (literal s')
      else if (c =? 43)%N then option_map Z.of_N (literal s')
      else option_map Z.of_N (literal (c :: s'))
  end.

(** [int(s)]; [None] stands for [ValueError].  The cap that recent
    interpreters put on the number of digits [int] and [str] convert (4300
    unless configured otherwise) is not part of the model. *)
Definition py_int (s : str) : option Z :=
  match ascii_of_str s with
  | Some a => long_from_string a
  | None => None
  end.
End PyInt.

(** The part of [s] before the first [sep], and what follows that [sep]. *)
Fixpoint break_at (sep : char) (s : str) : str * option str :=
  match s with
  | [] => ([], None)
  | c :: s' =>
      if (c =? sep)%N then ([], Some s')
      else let (a, r) := break_at sep s' in (c :: a, r)
  end.

(** [s.split(sep, maxsplit)] for a separator of one character. *)
Fixpoint split_char (sep : char) (maxsplit : nat) (s : str) : list str :=
  match maxsplit with
  | O => [s]
  | S m =>
      match break_at sep s with
      | (a, Some rest) => a :: split_char sep m rest
      | (a, None) => [a]
      end
  end.

(* ================================================================== *)
(** ** utils.py: the result presenter *)
(* ================================================================== *)

(** A row as the queries select it: (title, message_id, chat_id, file_id). *)
Definition BookTuple : Type := str * Z * Z * str.

Inductive InlineKeyboardButton : Type :=
| CallbackButton (text : str) (callback_data : str)
| UrlButton (text : str) (url : str).

Definition InlineKeyboardMarkup : Type := list (list InlineKeyboardButton).

Definition PREVIOUS_LABEL : str := [11013; 65039; 32; 19978; 19968; 39029]%N.
Definition NEXT_LABEL : str := [19979; 19968; 39029; 32; 10145; 65039]%N.
Definition BOOK_ICON : str := [128214; 32]%N.
Definition NOT_FOUND_TEXT : str :=
  [10060; 32; 26410; 25214; 21040; 30456; 20851; 20070; 31821]%N.
Definition FOUND_PREFIX : str := [128218; 32; 25214; 21040; 32]%N.
Definition FOUND_SUFFIX : str := [32; 26412; 30456; 20851; 20070; 31821; 58]%N.
Definition RESULT_ICON : str := [128218; 32]%N.

(** f"page_{page}_{query}". *)
Definition page_payload (page : Z) (query : str) : str :=
  lit "page_" ++ str_of_Z page ++ [UNDERSCORE] ++ query.

Definition format_book_result (book : BookTuple) : str :=
  let '(title, message_id, chat_id, _) := book in
  let message_link :=
    lit "https://t.me/c/" ++ skipn 4 (str_of_Z chat_id) ++ lit "/" ++ str_of_Z message_id in
  RESULT_ICON ++ lit "[" ++ title ++ lit "](" ++ message_link ++ lit ")".

Definition create_pagination_keyboard (current_page total_pages : Z)
    (query : str) (advertisements : list (str * str)) : InlineKeyboardMarkup :=
  let previous :=
    if (1 <? current_page)%Z
    then [CallbackButton PREVIOUS_LABEL (page_payload (current_page - 1) query)]
    else [] in
  let indicator :=
    [CallbackButton
       (BOOK_ICON ++ str_of_Z current_page ++ lit "/" ++ str_of_Z total_pages)
       (lit "noop")] in
  let next :=
    if (current_page <? total_pages)%Z
    then [CallbackButton NEXT_LABEL (page_payload (current_page + 1) query)]
    else [] in
  (previous ++ indicator ++ next)
    :: map (fun ad => [UrlButton (fst ad) (snd ad)]) advertisements.

Definition per_page_default : Z := 10.

(** [(total_count + per_page - 1) // per_page]; [//] is floor division. *)
Definition total_pages_of (total_count : Z) : Z :=
  ((total_count + per_page_default - 1) / per_page_default)%Z.

(** The numbered lines of [format_search_results], [i] counting from 1. *)
Fixpoint result_lines (current_page : Z) (i : Z) (books : list BookTuple) : list str :=
  match books with
  | [] => []
  | book :: rest =>
      (NEWLINE :: str_of_Z ((current_page - 1) * per_page_default + i)%Z
         ++ lit ". " ++ format_book_result book)
        :: result_lines current_page (i + 1)%Z rest
  end.

Definition format_search_results (books : list BookTuple) (total_count : Z)
    (current_page : Z) (query : str) (advertisements : list (str * str))
  : str * option InlineKeyboardMarkup :=
  match books with
  | [] => (NOT_FOUND_TEXT, None)
  | _ =>
      let total_pages := total_pages_of total_count in
      let results :=
        (FOUND_PREFIX ++ str_of_Z total_count ++ FOUND_SUFFIX)
          :: result_lines current_page 1 books in
      (@join [NEWLINE] results,
       Some (create_pagination_keyboard current_page total_pages query advertisements))
  end.

(* ================================================================== *)
(** ** database.py: the catalogue store *)
(* ================================================================== *)

(** A row of [ebooks].  The list of rows of the table is kept in rowid
    order, which is the order of insertion ([id] is AUTOINCREMENT);
    [added_date] is the CURRENT_TIMESTAMP of the insertion. *)
Record Ebook := {
  title : str;
  message_id : Z;
  chat_id : Z;
  file_id : str;
  added_date : Z
}.

(** A row of [advertisements]. *)
Record Advertisement := {
  ad_id : Z;
  ad_text : str;
  ad_url : str;
  is_active : bool
}.

Record Database := {
  ebooks : list Ebook;
  advertisements : list Advertisement
}.

(** The external transport: which (chat_id, message_id) still exist in the
    chats.  No method of [Database] has access to it. *)
Definition Transport : Type := Z -> Z -> bool.

Definition book_tuple (e : Ebook) : BookTuple :=
  (title e, message_id e, chat_id e, file_id e).

Definition with_ebooks (db : Database) (rows : list Ebook) : Database :=
  {| ebooks := rows; advertisements := advertisements db |}.

Definition with_advertisements (db : Database) (rows : list Advertisement) : Database :=
  {| ebooks := ebooks db; advertisements := rows |}.

(** [SELECT title, message_id, chat_id, file_id FROM ebooks WHERE title = ?
    LIMIT 1]: no ORDER BY, so the first row the scan meets; SQLite walks
    the table, and the index [idx_title] within one title, by rowid. *)
Definition check_book_exists (db : Database) (t : str) : option BookTuple :=
  option_map book_tuple (find (fun e => str_eqb (title e) t) (ebooks db)).

(** [add_book]; [now] is the time of the call.  A tuple of four fields is
    never falsy, so [if existing_book] is the test for [Some]. *)
Definition add_book (db : Database) (now : Z)
    (t : str) (mid cid : Z) (fid : str) : Database * bool :=
  match check_book_exists db t with
  | Some _ => (db, false)
  | None =>
      (with_ebooks db
         (ebooks db ++ [{| title := t; message_id := mid; chat_id := cid;
                           file_id := fid; added_date := now |}]),
       true)
  end.

Definition same_message (cid mid : Z) (e : Ebook) : bool :=
  ((chat_id e =? cid) && (message_id e =? mid))%Z.

(** [SELECT COUNT( * ) FROM ebooks WHERE chat_id = ? AND message_id = ?],
    then [count > 0]. *)
Definition check_message_exists (db : Database) (cid mid : Z) : bool :=
  (0 <? Z.of_nat (length (filter (same_message cid mid) (ebooks db))))%Z.

(** [DELETE FROM ebooks WHERE chat_id = ? AND message_id = ?], then
    [cursor.rowcount > 0]. *)
Definition remove_deleted_messages (db : Database) (cid mid : Z) : Database * bool :=
  (with_ebooks db (filter (fun e => negb (same_message cid mid e)) (ebooks db)),
   (0 <? Z.of_nat (length (filter (same_message cid mid) (ebooks db))))%Z).

(** *** The query of search_books *)

(** The ORDER BY added_date DESC of the window: the rows the scan
    delivers, newest first, rows of equal date in rowid order, so that the
    first row of a title in this list is the row of rank 1 of its
    partition. *)
Fixpoint insert_by_date (e : Ebook) (l : list Ebook) : list Ebook :=
  match l with
  | [] => [e]
  | x :: l' =>
      if (added_date x <=? added_date e)%Z then e :: l
      else x :: insert_by_date e l'
  end.

Definition order_by_date_desc (l : list Ebook) : list Ebook :=
  fold_right insert_by_date [] l.

(** The rows with [rn = 1]: in a list ordered by date, the first row of
    each title. *)
Fixpoint first_of_each_title (seen : list str) (l : list Ebook) : list Ebook :=
  match l with
  | [] => []
  | e :: l' =>
      if existsb (str_eqb (title e)) seen then first_of_each_title seen l'
      else e :: first_of_each_title (title e :: seen) l'
  end.

(** The BINARY collation of TEXT: the order of the code points, a proper
    prefix first. *)
Fixpoint str_ltb (a b : str) : bool :=
  match a, b with
  | _, [] => false
  | [], _ :: _ => true
  | x :: a', y :: b' => (x <? y)%N || ((x =? y)%N && str_ltb a' b')
  end.

(** [a] is listed before [b] by the outer ORDER BY added_date DESC: it is
    newer, or as old and of a smaller title, the window step handing the
    partitions over in the order of their titles. *)
Definition listed_before (a b : Ebook) : bool :=
  (added_date b <? added_date a)%Z
  || ((added_date b =? added_date a)%Z && str_ltb (title a) (title b)).

Fixpoint insert_ranked (e : Ebook) (l : list Ebook) : list Ebook :=
  match l with
  | [] => [e]
  | x :: l' =>
      if listed_before e x then e :: l else x :: insert_ranked e l'
  end.

Definition order_ranked (l : list Ebook) : list Ebook :=
  fold_right insert_ranked [] l.

(** LIMIT ? OFFSET ?: a negative OFFSET counts as 0, a negative LIMIT is
    no limit. *)
Definition limit_offset {A : Type} (limit offset : Z) (l : list A) : list A :=
  let l := skipn (Z.to_nat offset) l in
  if (limit <? 0)%Z then l else firstn (Z.to_nat limit) l.

(** An integer SQLite can store: 64 bits, signed. *)
Definition sqlite_integer (z : Z) : bool :=
  ((- 2 ^ 63 <=? z) && (z <=? 2 ^ 63 - 1))%Z.

(** [cursor.execute] of [search_books] binds [per_page] and
    [(page - 1) * per_page] as integers and raises [OverflowError] when one
    of them is not an integer SQLite can store.  That is no
    [sqlite3.Error], so [search_books] does not catch it: the call returns
    nothing and the caller sees the exception.  [search_books] below is
    the method on the arguments that do not overflow. *)
Definition search_books_overflows (page per_page : Z) : bool :=
  negb (sqlite_integer per_page && sqlite_integer ((page - 1) * per_page)).

(** f"%{query}%". *)
Definition like_pattern (query : str) : str :=
  [PERCENT] ++ query ++ [PERCENT].

Section Search.
Context {E : SqlEngine}.

(** WHERE e.title LIKE ?. *)
Definition matching_rows (db : Database) (pattern : str) : list Ebook :=
  filter (fun e => sql_like pattern (title e)) (ebooks db).

(** RankedBooks WHERE rn = 1 ORDER BY added_date DESC. *)
Definition ranked_books (db : Database) (pattern : str) : list Ebook :=
  order_ranked
    (first_of_each_title [] (order_by_date_desc (matching_rows db pattern))).

(** The rows [cursor.fetchall()] returns: the four columns and
    [total_count], the number of rows with [rn = 1]. *)
Definition search_rows (db : Database) (pattern : str) (limit offset : Z)
  : list (BookTuple * Z) :=
  let ranked := ranked_books db pattern in
  let total_count := Z.of_nat (length ranked) in
  map (fun e => (book_tuple e, total_count)) (limit_offset limit offset ranked).

(** The loop over [filtered_results]: every call of
    [check_message_exists] and [remove_deleted_messages] sees the table
    as the calls before it left it. *)
Fixpoint filter_deleted (db : Database) (results : list BookTuple)
    (valid_results : list BookTuple) (actual_count : Z)
  : Database * (list BookTuple * Z) :=
  match results with
  | [] => (db, (valid_results, actual_count))
  | result :: rest =>
      let '(_, msg_id, cid, _) := result in
      if check_message_exists db cid msg_id
      then filter_deleted db rest (valid_results ++ [result]) actual_count
      else filter_deleted (fst (remove_deleted_messages db cid msg_id)) rest
             valid_results (actual_count - 1)%Z
  end.

Definition search_books (db : Database) (query : str) (page per_page : Z)
  : Database * (list BookTuple * Z) :=
  let search_query := like_pattern query in
  let offset := ((page - 1) * per_page)%Z in
  let results := search_rows db search_query per_page offset in
  match results with
  | [] => (db, ([], 0%Z))
  | (_, total_count) :: _ =>
      let filtered_results := map fst results in
      filter_deleted db filtered_results [] total_count
  end.
End Search.

(** *** Advertisements *)

(** [UPDATE advertisements SET is_active = 0 WHERE id = ?], then
    [cursor.rowcount > 0]: SQLite counts every row the WHERE clause
    selects, whether or not its value changes. *)
Definition remove_advertisement (db : Database) (id : Z) : Database * bool :=
  (with_advertisements db
     (map (fun a => if (ad_id a =? id)%Z
                    then {| ad_id := ad_id a; ad_text := ad_text a;
                            ad_url := ad_url a; is_active := false |}
                    else a)
          (advertisements db)),
   (0 <? Z.of_nat (length (filter (fun a => (ad_id a =? id)%Z) (advertisements db))))%Z).

Definition active_with_id (id : Z) (a : Advertisement) : bool :=
  (ad_id a =? id)%Z && is_active a.

(** [UPDATE advertisements SET text = ?, url = ? WHERE id = ? AND
    is_active = 1], then [cursor.rowcount > 0]. *)
Definition edit_advertisement (db : Database) (id : Z) (text url : str)
  : Database * bool :=
  (with_advertisements db
     (map (fun a => if active_with_id id a
                    then {| ad_id := ad_id a; ad_text := text;
                            ad_url := url; is_active := is_active a |}
                    else a)
          (advertisements db)),
   (0 <? Z.of_nat (length (filter (active_with_id id) (advertisements db))))%Z).

(** [SELECT id, text, url FROM advertisements WHERE id = ? AND
    is_active = 1], [fetchone]. *)
Definition get_advertisement (db : Database) (id : Z) : option (Z * str * str) :=
  option_map (fun a => (ad_id a, ad_text a, ad_url a))
    (find (active_with_id id) (advertisements db)).

(* ================================================================== *)
(** ** handlers.py *)
(* ================================================================== *)

Section Handlers.
Context {U : UnicodeDB} {E : SqlEngine}.

(** [_, page, search_query = query.data.split('_', 2)] and [int(page)];
    [None] when the unpacking or [int] raises. *)
Definition decode_page_payload (data : str) : option (Z * str) :=
  match split_char UNDERSCORE 2 data with
  | [_; page; search_query] =>
      match py_int page with
      | Some page => Some (page, search_query)
      | None => None
      end
  | _ => None
  end.

(** What [handle_pagination] writes into the message: the formatted
    page, or the error text of the [except Exception] branch, which is
    reached when the data cannot be unpacked or read as a page and when
    [search_books] raises.  [advertisements] is the sample
    [get_active_advertisements] draws. *)
Definition handle_pagination (db : Database) (data : str)
    (advertisements : list (str * str))
  : Database * option (str * option InlineKeyboardMarkup) :=
  match decode_page_payload data with
  | Some (page, search_query) =>
      if search_books_overflows page per_page_default then (db, None)
      else
        let '(db', (results, total_count)) :=
          search_books db search_query page per_page_default in
        (db', Some (format_search_results results total_count page
                      search_query advertisements))
  | None => (db, None)
  end.

Fixpoint ends_with (s suffix : str) : bool :=
  str_eqb s suffix ||
  match s with
  | [] => false
  | _ :: s' => ends_with s' suffix
  end.

Definition supported_extensions : list str :=
  [lit ".pdf"; lit ".epub"; lit ".mobi"; lit ".txt"].

(** The replies of [handle_document]. *)
Inductive UploadReply : Type :=
| NoFileName
| UnsupportedFormat
| AlreadyRecorded (existing_title : str) (existing_chat_id existing_msg_id : Z)
| Recorded (t : str) (cid mid : Z)
| SaveFailed.

Definition handle_document (db : Database) (now : Z)
    (file_name : option str) (mid cid : Z) (fid : str)
  : Database * UploadReply :=
  match file_name with
  | None | Some [] => (db, NoFileName)
  | Some file_name =>
      if negb (existsb (ends_with (py_lower file_name)) supported_extensions)
      then (db, UnsupportedFormat)
      else
        let t := clean_title file_name in
        let store (db : Database) :=
          let (db', success) := add_book db now t mid cid fid in
          (db', if success then Recorded t cid mid else SaveFailed) in
        match check_book_exists db t with
        | Some (existing_title, existing_msg_id, existing_chat_id, _) =>
            if check_message_exists db existing_chat_id existing_msg_id
            then (db, AlreadyRecorded existing_title existing_chat_id existing_msg_id)
            else store (fst (remove_deleted_messages db existing_chat_id existing_msg_id))
        | None => store db
        end
  end.
End Handlers.

(* ================================================================== *)
(** ** Vocabulary of the statements, and sample stores *)
(* ================================================================== *)

Definition is_digit (c : char) : Prop := in_range 48 57 c = true.

(** The characters [str] writes for an integer. *)
Definition is_int_char (c : char) : Prop := is_digit c \/ c = HYPHEN.

Section Words.
Context {U : UnicodeDB}.

(** The characters of the words of a cleaned title. *)
Definition title_char (c : char) : Prop := is_word c = true \/ c = HYPHEN.

(** A word: not empty, free of white space, made of characters in [P]. *)
Definition word_of (P : char -> Prop) (w : str) : Prop :=
  w <> [] /\ Forall (fun c => py_isspace c = false /\ P c) w.
End Words.

(** A tuple read from a row of the table. *)
Definition stored_in (db : Database) (r : BookTuple) : Prop :=
  exists e, In e (ebooks db) /\ book_tuple e = r.

(** Whether the message a row points to still exists in its chat. *)
Definition resolves (chats : Transport) (e : Ebook) : bool :=
  chats (chat_id e) (message_id e).

(** The row with a given title that was inserted last. *)
Definition latest_inserted_with_title (db : Database) (t : str) : option BookTuple :=
  option_map book_tuple (find (fun e => str_eqb (title e) t) (rev (ebooks db))).

(** The titles a pattern matches, each once. *)
Definition distinct_titles {E : SqlEngine} (db : Database) (pattern : str) : list str :=
  nodup (list_eq_dec N.eq_dec) (map title (matching_rows db pattern)).

(** A chat in which no message is left. *)
Definition emptied_chats : Transport := fun _ _ => false.

Definition rust_book : Ebook :=
  {| title := lit "Rust Book"; message_id := 7; chat_id := -1001234567890;
     file_id := lit "file-7"; added_date := 1700000000 |}.

(** One book, recorded from message 7. *)
Definition one_book_store : Database :=
  {| ebooks := [rust_book]; advertisements := [] |}.

(** Two rows of one title, the second inserted after the first. *)
Definition twin_store : Database :=
  {| ebooks :=
       [ {| title := lit "X"; message_id := 1; chat_id := -1001234567890;
            file_id := lit "file-1"; added_date := 1700000000 |};
         {| title := lit "X"; message_id := 2; chat_id := -1001234567890;
            file_id := lit "file-2"; added_date := 1700000060 |} ];
     advertisements := [] |}.

(** Twenty-three books of different titles, "Vol 1" to "Vol 23". *)
Definition shelf_store : Database :=
  {| ebooks :=
       map (fun i => {| title := lit "Vol " ++ str_of_Z (Z.of_nat i);
                        message_id := Z.of_nat i; chat_id := -1001234567890;
                        file_id := lit "file"; added_date := 1700000000 + Z.of_nat i |})
           (seq 1 23);
     advertisements := [] |}.

(** Seven advertisements, the third switched off. *)
Definition campaign_store : Database :=
  {| ebooks := [];
     advertisements :=
       map (fun i => {| ad_id := Z.of_nat i;
                        ad_text := lit "Ad " ++ str_of_Z (Z.of_nat i);
                        ad_url := lit "https://t.me/ad" ++ str_of_Z (Z.of_nat i);
                        is_active := negb (Nat.eqb i 3) |})
           (seq 1 7) |}.

(** A draw of five of its six active advertisements: the last five,
    newest first. *)
Definition campaign_sample : list (str * str) :=
  map (fun a => (ad_text a, ad_url a))
      (firstn 5 (rev (filter is_active (advertisements campaign_store)))).

(** One advertisement, already switched off. *)
Definition retired_ad_store : Database :=
  {| ebooks := [];
     advertisements :=
       [ {| ad_id := 1; ad_text := lit "Join us"; ad_url := lit "https://t.me/example";
            is_active := false |} ] |}.

(* ================================================================== *)
(** ** database.py: the other methods *)
(* ================================================================== *)

(** [get_book] runs the query of [check_book_exists]. *)
Definition get_book (db : Database) (t : str) : option BookTuple :=
  option_map book_tuple (find (fun e => str_eqb (title e) t) (ebooks db)).

(** The id AUTOINCREMENT gives the next advertisement: one more than the
    largest id the table ever held.  No method deletes a row of
    [advertisements], so that is the largest id in the table (0 for an
    empty one). *)
Definition next_advertisement_id (db : Database) : Z :=
  (1 + fold_right Z.max 0 (map ad_id (advertisements db)))%Z.

(** [INSERT INTO advertisements (text, url) VALUES (?, ?)]; [is_active]
    defaults to 1. *)
Definition add_advertisement (db : Database) (text url : str) : Database * bool :=
  (with_advertisements db
     (advertisements db
        ++ [{| ad_id := next_advertisement_id db; ad_text := text;
               ad_url := url; is_active := true |}]),
   true).

(** ORDER BY id. *)
Fixpoint insert_by_id (a : Advertisement) (l : list Advertisement) : list Advertisement :=
  match l with
  | [] => [a]
  | x :: l' =>
      if (ad_id a <=? ad_id x)%Z then a :: l else x :: insert_by_id a l'
  end.

Definition order_by_id (l : list Advertisement) : list Advertisement :=
  fold_right insert_by_id [] l.

Definition ad_columns (a : Advertisement) : Z * str * str :=
  (ad_id a, ad_text a, ad_url a).

(** [SELECT id, text, url FROM advertisements WHERE is_active = 1 ORDER BY
    id]. *)
Definition list_advertisements (db : Database) : list (Z * str * str) :=
  map ad_columns (order_by_id (filter is_active (advertisements db))).

(** [SELECT text, url FROM advertisements WHERE is_active = 1 ORDER BY
    RANDOM() LIMIT 5]: the first five of the active rows in some order.
    The order is the engine's draw, so the method is a relation between the
    store and the list it may return. *)
Definition get_active_advertisements (db : Database) (sample : list (str * str)) : Prop :=
  exists shuffled,
    Permutation shuffled (filter is_active (advertisements db))
    /\ sample = map (fun a => (ad_text a, ad_url a)) (firstn 5 shuffled).

(* ================================================================== *)
(** ** handlers.py: the commands *)
(* ================================================================== *)

(** [user_id in ADMIN_IDS]. *)
Definition is_admin (admin_ids : list Z) (user_id : Z) : bool :=
  existsb (Z.eqb user_id) admin_ids.

(** [args[:-1]]. *)
Definition all_but_last (args : list str) : list str := removelast args.

(** The replies of the command handlers. *)
Inductive CommandReply : Type :=
| AdminOnly
| UsageHint
| InvalidAdId
| AdAdded (text url : str)
| AdAddFailed
| AdRemoved (id : Z)
| AdNotFound (id : Z)
| NoActiveAds
| AdListing (ads : list (Z * str * str))
| AdUpdated (id : Z) (text url : str)
| AdUpdateFailed
| AskForQuery
| SearchResults (text : str) (reply_markup : option InlineKeyboardMarkup)
| NoReply.

Section Commands.
Context {U : UnicodeDB} {E : SqlEngine}.

(** [ADMIN_IDS] of [config.py]. *)
Variable ADMIN_IDS : list Z.

(** [int] of the interpreter on a command argument; [None] is
    [ValueError]. *)
Variable int_of : str -> option Z.

Definition add_advertisement_command (db : Database) (user_id : Z)
    (args : list str) : Database * CommandReply :=
  if negb (is_admin ADMIN_IDS user_id) then (db, AdminOnly)
  else if (length args <? 2)%nat then (db, UsageHint)
  else
    let text := join [SPACE] (all_but_last args) in
    let url := last args [] in
    let (db', ok) := add_advertisement db text url in
    (db', if ok then AdAdded text url else AdAddFailed).

Definition remove_advertisement_command (db : Database) (user_id : Z)
    (args : list str) : Database * CommandReply :=
  if negb (is_admin ADMIN_IDS user_id) then (db, AdminOnly)
  else
    match args with
    | [] => (db, UsageHint)
    | first :: _ =>
        match int_of first with
        | None => (db, InvalidAdId)
        | Some id =>
            let (db', ok) := remove_advertisement db id in
            (db', if ok then AdRemoved id else AdNotFound id)
        end
    end.

Definition list_advertisements_command (db : Database) (user_id : Z)
  : Database * CommandReply :=
  if negb (is_admin ADMIN_IDS user_id) then (db, AdminOnly)
  else
    match list_advertisements db with
    | [] => (db, NoActiveAds)
    | ads => (db, AdListing ads)
    end.

Definition edit_advertisement_command (db : Database) (user_id : Z)
    (args : list str) : Database * CommandReply :=
  if negb (is_admin ADMIN_IDS user_id) then (db, AdminOnly)
  else if (length args <? 3)%nat then (db, UsageHint)
  else
    match int_of (hd [] args) with
    | None => (db, InvalidAdId)
    | Some id =>
        let url := last args [] in
        let text := join [SPACE] (all_but_last (tl args)) in
        match get_advertisement db id with
        | None => (db, AdNotFound id)
        | Some _ =>
            let (db', ok) := edit_advertisement db id text url in
            (db', if ok then AdUpdated id text url else AdUpdateFailed)
        end
    end.

(** The reply both search handlers send for a query: page 1, formatted
    with the advertisements drawn. *)
Definition reply_first_page (db : Database) (query : str)
    (advertisements : list (str * str)) : Database * CommandReply :=
  let '(db', (results, total_count)) := search_books db query 1 per_page_default in
  let (response, reply_markup) :=
    format_search_results results total_count 1 query advertisements in
  (db', SearchResults response reply_markup).

Definition search_command (db : Database) (args : list str)
    (advertisements : list (str * str)) : Database * CommandReply :=
  let query := match args with [] => [] | _ => join [SPACE] args end in
  match query with
  | [] => (db, AskForQuery)
  | _ => reply_first_page db query advertisements
  end.

(** [query.startswith('/')]. *)
Definition starts_with_slash (s : str) : bool :=
  match s with
  | c :: _ => (c =? 47)%N
  | [] => false
  end.

Definition handle_text (db : Database) (text : str)
    (advertisements : list (str * str)) : Database * CommandReply :=
  let query := strip text in
  match query with
  | [] => (db, NoReply)
  | _ =>
      if starts_with_slash query then (db, NoReply)
      else reply_first_page db query advertisements
  end.
End Commands.

(* ================================================================== *)
(** ** Vocabulary of the further properties *)
(* ================================================================== *)

(** The row [add_book] inserts. *)
Definition new_row (now : Z) (t : str) (mid cid : Z) (fid : str) : Ebook :=
  {| title := t; message_id := mid; chat_id := cid; file_id := fid;
     added_date := now |}.

(** The title column of a selected row. *)
Definition tuple_title (r : BookTuple) : str := fst (fst (fst r)).

(** [a] was not added before [b]. *)
Definition not_older (a b : Ebook) : Prop := (added_date b <= added_date a)%Z.

(** The rows of one page of the ranking. *)
Definition page_rows {E : SqlEngine} (db : Database) (query : str)
    (page per_page : Z) : list Ebook :=
  limit_offset per_page ((page - 1) * per_page) (ranked_books db (like_pattern query)).

(** The test of [handle_document] for an ebook file name. *)
Definition supported {U : UnicodeDB} (name : str) : bool :=
  existsb (ends_with (py_lower name)) supported_extensions.

(** What [remove_advertisement] does to one row. *)
Definition deactivate (id : Z) (a : Advertisement) : Advertisement :=
  if (ad_id a =? id)%Z
  then {| ad_id := ad_id a; ad_text := ad_text a; ad_url := ad_url a;
          is_active := false |}
  else a.

(** What [edit_advertisement] does to one row. *)
Definition rewrite_ad (id : Z) (text url : str) (a : Advertisement) : Advertisement :=
  if active_with_id id a
  then {| ad_id := ad_id a; ad_text := text; ad_url := url;
          is_active := is_active a |}
  else a.

(* ================================================================== *)
(** * Properties *)
(* ================================================================== *)

(** ** The model at work *)

Example clean_title_my_book :
  @clean_title ascii_db (lit "My Book.PDF") = lit "My Book".
Proof. reflexivity. Qed.

Example clean_title_inner_extension :
  @clean_title ascii_db (lit "x.pdf.epub") = lit "x pdf".
Proof. reflexivity. Qed.

Example clean_title_punctuation :
  @clean_title ascii_db (lit "  a__b  c.d.txt") = lit "a__b c d".
Proof. reflexivity. Qed.

Example str_of_Z_negative : str_of_Z (-120) = lit "-120".
Proof. reflexivity. Qed.

Example py_int_padded : @py_int ascii_db (lit " -0120 ") = Some (-120)%Z.
Proof. reflexivity. Qed.

Example split_char_keeps_remainder :
  split_char UNDERSCORE 2 (lit "page_2_a_b_c") = [lit "page"; lit "2"; lit "a_b_c"].
Proof. reflexivity. Qed.

Example decode_noop : @decode_page_payload ascii_db (lit "noop") = None.
Proof. reflexivity. Qed.

Example total_pages_of_values :
  map total_pages_of [0; 1; 10; 11; 20; 21; 23]%Z = [0; 1; 1; 2; 2; 3; 3]%Z.
Proof. reflexivity. Qed.

Example search_latest_of_each_title :
  snd (@search_books ascii_engine twin_store (lit "x") 1 10)
  = ([(lit "X", 2, -1001234567890, lit "file-2")], 1)%Z.
Proof. reflexivity. Qed.

Example upload_new_title :
  @handle_document ascii_db one_book_store 1700000100 (Some (lit "Go Book.EPUB"))
    8 (-1001234567890) (lit "file-8")
  = (with_ebooks one_book_store
       [rust_book;
        {| title := lit "Go Book"; message_id := 8; chat_id := -1001234567890;
           file_id := lit "file-8"; added_date := 1700000100 |}],
     Recorded (lit "Go Book") (-1001234567890) 8).
Proof. reflexivity. Qed.

Example upload_unsupported :
  snd (@handle_document ascii_db one_book_store 1700000100 (Some (lit "notes.docx"))
         8 (-1001234567890) (lit "file-8"))
  = UnsupportedFormat.
Proof. reflexivity. Qed.

(** ** clean_title *)

Section CleanTitleFacts.
Context {U : UnicodeDB}.

Lemma split_whitespace_words (P : char -> Prop) (s : str) :
  Forall P s -> Forall (word_of P) (split_whitespace s).
Proof.
  induction s as [|c s IH]; intros HP; simpl; [constructor|].
  inversion HP as [|? ? Hc Hs]; subst. specialize (IH Hs).
  destruct (py_isspace c) eqn:Ec; [exact IH|].
  assert (Hone : word_of P [c]).
  { split; [discriminate|]. repeat constructor; assumption. }
  destruct s as [|d s'].
  - constructor; [exact Hone|constructor].
  - destruct (py_isspace d) eqn:Ed.
    + constructor; assumption.
    + destruct (split_whitespace (d :: s')) as [|w ws].
      * constructor; [exact Hone|constructor].
      * inversion IH as [|? ? [Hw1 Hw2] Hws]; subst.
        constructor; [|assumption].
        split; [discriminate|]. constructor; [split|]; assumption.
Qed.

Lemma split_whitespace_word (w rest : str) :
  w <> [] -> Forall (fun c => py_isspace c = false) w ->
  (rest = [] \/ exists d r, rest = d :: r /\ py_isspace d = true) ->
  split_whitespace (w ++ rest) = w :: split_whitespace rest.
Proof.
  induction w as [|c w IH]; intros Hne Hw Hrest; [congruence|].
  inversion Hw as [|? ? Hc Hw']; subst.
  change ((c :: w) ++ rest) with (c :: (w ++ rest)).
  destruct w as [|d w'].
  - simpl. rewrite Hc.
    destruct Hrest as [->|(d & r & -> & Hd)]; [reflexivity|].
    rewrite Hd. reflexivity.
  - assert (Hd : py_isspace d = false) by (inversion Hw'; assumption).
    specialize (IH ltac:(discriminate) Hw' Hrest).
    cbn [split_whitespace]. rewrite Hc.
    change ((d :: w') ++ rest) with (d :: (w' ++ rest)) in *.
    cbv iota beta. rewrite Hd.
    cbn [app] in IH. rewrite IH. reflexivity.
Qed.


Hypothesis space_is_whitespace : py_isspace SPACE = true.

Lemma split_whitespace_join (P : char -> Prop) (ws : list str) :
  Forall (word_of P) ws -> split_whitespace (join [SPACE] ws) = ws.
Proof.
  induction ws as [|w ws IH]; intros Hws; [reflexivity|].
  inversion Hws as [|? ? [Hne Hw] Hws']; subst.
  assert (Hw' : Forall (fun c => py_isspace c = false) w).
  { eapply Forall_impl; [|exact Hw]. intros c [Hc _]; exact Hc. }
  destruct ws as [|w2 ws'].
  - simpl. rewrite <- (app_nil_r w) at 1.
    rewrite split_whitespace_word; auto.
  - change (join [SPACE] (w :: w2 :: ws'))
      with (w ++ SPACE :: join [SPACE] (w2 :: ws')).
    rewrite split_whitespace_word; auto.
    + cbn [split_whitespace]. rewrite space_is_whitespace.
      rewrite IH; auto.
    + right. eauto.
Qed.

(** The characters of a joined list of words. *)
Lemma join_chars (P : char -> Prop) (ws : list str) :
  Forall (word_of P) ws ->
  Forall (fun c => c = SPACE \/ (py_isspace c = false /\ P c)) (join [SPACE] ws).
Proof.
  induction ws as [|w ws IH]; intros Hws; [constructor|].
  inversion Hws as [|? ? [Hne Hw] Hws']; subst.
  assert (Hw' : Forall (fun c => c = SPACE \/ (py_isspace c = false /\ P c)) w).
  { eapply Forall_impl; [|exact Hw]. intros c Hc; right; exact Hc. }
  destruct ws as [|w2 ws']; [exact Hw'|].
  change (join [SPACE] (w :: w2 :: ws'))
    with (w ++ SPACE :: join [SPACE] (w2 :: ws')).
  apply Forall_app. split; [exact Hw'|].
  constructor; [left; reflexivity|]. apply IH; assumption.
Qed.

Lemma replace_special_keeps (s : str) :
  Forall (fun c => keeps c = true) (replace_special s).
Proof.
  unfold replace_special. apply Forall_forall. intros c Hc.
  apply in_map_iff in Hc. destruct Hc as (c0 & <- & _).
  destruct (keeps c0) eqn:Ek; [exact Ek|].
  unfold keeps. rewrite space_is_whitespace.
  rewrite orb_true_r. reflexivity.
Qed.

Lemma replace_special_fixed (s : str) :
  Forall (fun c => keeps c = true) s -> replace_special s = s.
Proof.
  unfold replace_special. induction 1 as [|c s Hc _ IH]; [reflexivity|].
  simpl. rewrite Hc, IH. reflexivity.
Qed.

Lemma strip_extension_no_dot (s : str) :
  ~ In DOT s -> strip_extension s = s.
Proof.
  induction s as [|c s IH]; intros Hdot; [reflexivity|].
  cbn [strip_extension match_extension].
  destruct (N.eqb_spec c DOT) as [->|_].
  - exfalso. apply Hdot. left; reflexivity.
  - rewrite IH; [reflexivity|]. intros Hin. apply Hdot. right; exact Hin.
Qed.

Lemma clean_title_words (x : str) :
  Forall (word_of title_char)
    (split_whitespace (replace_special (strip_extension x))).
Proof.
  eapply Forall_impl;
    [|apply (split_whitespace_words (P := fun c => keeps c = true));
      apply replace_special_keeps].
  intros w [Hne Hw]. split; [exact Hne|].
  eapply Forall_impl; [|exact Hw].
  intros c [Hs Hk]. split; [exact Hs|].
  unfold keeps in Hk. rewrite Hs, orb_false_r in Hk.
  apply orb_true_iff in Hk. destruct Hk as [Hk|Hk]; [left; exact Hk|].
  right. apply N.eqb_eq; exact Hk.
Qed.

Lemma join_keeps (ws : list str) :
  Forall (word_of title_char) ws ->
  Forall (fun c => keeps c = true) (join [SPACE] ws).
Proof.
  intros Hws. eapply Forall_impl; [|apply (join_chars Hws)].
  intros c [->|[_ [Hc| ->]]]; unfold keeps.
  - rewrite space_is_whitespace, orb_true_r. reflexivity.
  - rewrite Hc. reflexivity.
  - rewrite orb_true_r. reflexivity.
Qed.

Lemma join_first_char (P : char -> Prop) (ws : list str) (c : char) (rest : str) :
  Forall (word_of P) ws -> join [SPACE] ws = c :: rest -> py_isspace c = false.
Proof.
  intros Hws Hj. destruct ws as [|w ws]; [discriminate Hj|].
  inversion Hws as [|? ? [Hne Hw] _]; subst.
  destruct w as [|c0 w]; [congruence|].
  assert (c0 = c) as <-.
  { destruct ws; simpl in Hj; congruence. }
  inversion Hw as [|? ? [Hc _] _]; exact Hc.
Qed.

Lemma join_last_char (P : char -> Prop) (ws : list str) (pre : str) (c : char) :
  Forall (word_of P) ws -> join [SPACE] ws = pre ++ [c] -> py_isspace c = false.
Proof.
  revert pre. induction ws as [|w ws IH]; intros pre Hws Hj.
  - destruct pre; discriminate Hj.
  - inversion Hws as [|? ? [Hne Hw] Hws']; subst.
    destruct ws as [|w2 ws'].
    + simpl in Hj. subst w. apply Forall_app in Hw. destruct Hw as [_ Hc].
      inversion Hc as [|? ? [Hc' _] _]; exact Hc'.
    + change (join [SPACE] (w :: w2 :: ws'))
        with (w ++ SPACE :: join [SPACE] (w2 :: ws')) in Hj.
      remember (join [SPACE] (w2 :: ws')) as r eqn:Er.
      assert (Hr : r <> []).
      { inversion Hws' as [|? ? [Hne2 _] _]; subst.
        destruct w2; [congruence|]. destruct ws'; discriminate. }
      destruct (exists_last Hr) as (pre' & c' & Epre).
      rewrite Epre in Hj.
      change (w ++ SPACE :: pre' ++ [c']) with (w ++ (SPACE :: pre') ++ [c']) in Hj.
      rewrite app_assoc in Hj. apply app_inj_tail in Hj. destruct Hj as [_ ->].
      apply (IH pre'); [assumption|]. exact Epre.
Qed.

Lemma no_double_space_app (w r : str) :
  Forall (fun c => py_isspace c = false) w ->
  (forall post, r <> SPACE :: post) ->
  (forall pre post, r <> pre ++ SPACE :: SPACE :: post) ->
  forall pre post, w ++ SPACE :: r <> pre ++ SPACE :: SPACE :: post.
Proof.
  intros Hw Hhead Hr. induction Hw as [|c w Hc _ IH]; intros pre post Heq.
  - destruct pre as [|p pre]; simpl in Heq.
    + injection Heq as Heq. exact (Hhead _ Heq).
    + injection Heq as _ Heq. exact (Hr _ _ Heq).
  - destruct pre as [|p pre]; simpl in Heq.
    + injection Heq as -> _. rewrite space_is_whitespace in Hc. discriminate Hc.
    + injection Heq as _ Heq. exact (IH _ _ Heq).
Qed.

Lemma join_no_double_space (P : char -> Prop) (ws : list str) :
  Forall (word_of P) ws ->
  forall pre post, join [SPACE] ws <> pre ++ SPACE :: SPACE :: post.
Proof.
  induction ws as [|w ws IH]; intros Hws pre post.
  - destruct pre; discriminate.
  - inversion Hws as [|? ? [Hne Hw] Hws']; subst.
    assert (Hw' : Forall (fun c => py_isspace c = false) w).
    { eapply Forall_impl; [|exact Hw]. intros c [Hc _]; exact Hc. }
    destruct ws as [|w2 ws'].
    + simpl. intros Heq. rewrite Heq in Hw'.
      apply Forall_app in Hw'. destruct Hw' as [_ Hs].
      inversion Hs as [|? ? Hc _]. rewrite space_is_whitespace in Hc.
      discriminate Hc.
    + change (join [SPACE] (w :: w2 :: ws'))
        with (w ++ SPACE :: join [SPACE] (w2 :: ws')).
      apply no_double_space_app; [exact Hw'| |apply IH; exact Hws'].
      intros post' Heq.
      pose proof (join_first_char Hws' Heq) as Hc.
      rewrite space_is_whitespace in Hc. discriminate Hc.
Qed.

Hypothesis dot_is_not_alphanumeric : py_isalnum DOT = false.

Lemma join_no_dot (ws : list str) :
  Forall (word_of title_char) ws -> ~ In DOT (join [SPACE] ws).
Proof.
  intros Hws Hin.
  pose proof (join_chars Hws) as Hall.
  rewrite Forall_forall in Hall. specialize (Hall _ Hin).
  destruct Hall as [H|[_ [H|H]]]; try discriminate H.
  unfold is_word in H. rewrite dot_is_not_alphanumeric in H.
  discriminate H.
Qed.

(** C6.  The title normaliser is idempotent: cleaning a cleaned title
    changes nothing, for every input string.  The two facts used about the
    character tables are that the space is white space and that the dot is
    not alphanumeric. *)
Theorem clean_title_idempotent (x : str) :
  clean_title (clean_title x) = clean_title x.
Proof.
  unfold clean_title.
  pose proof (clean_title_words x) as Hws.
  set (ws := split_whitespace (replace_special (strip_extension x))) in *.
  rewrite strip_extension_no_dot by (apply join_no_dot; exact Hws).
  rewrite replace_special_fixed by (apply join_keeps; exact Hws).
  rewrite (split_whitespace_join Hws). reflexivity.
Qed.


(** C10.  For every input string the cleaned title is made of word
    characters (letters, digits, underscore), hyphens and single spaces: a
    character of it is the space or a character that is not white space and
    is a word character or the hyphen; its first and its last character are
    not white space; it has no two spaces in a row; it has no dot. *)
Theorem clean_title_shape (x : str) :
  let out := clean_title x in
  Forall (fun c => c = SPACE \/ (py_isspace c = false /\ title_char c)) out
  /\ (forall c rest, out = c :: rest -> py_isspace c = false)
  /\ (forall pre c, out = pre ++ [c] -> py_isspace c = false)
  /\ (forall pre post, out <> pre ++ SPACE :: SPACE :: post)
  /\ ~ In DOT out.
Proof.
  pose proof (clean_title_words x) as Hws. unfold clean_title. cbv zeta.
  repeat split.
  - apply join_chars; exact Hws.
  - intros c rest. apply (join_first_char Hws).
  - intros pre c. apply (@join_last_char _ _ pre c Hws).
  - apply (join_no_double_space Hws).
  - apply join_no_dot; exact Hws.
Qed.

End CleanTitleFacts.

Lemma clean_title_idempotent_witness :
  @py_isspace ascii_db SPACE = true
  /\ @py_isalnum ascii_db DOT = false
  /\ @clean_title ascii_db (@clean_title ascii_db (lit "My Book.v2.PDF"))
     = @clean_title ascii_db (lit "My Book.v2.PDF").
Proof.
  split; [reflexivity|]. split; [reflexivity|].
  apply (@clean_title_idempotent ascii_db); reflexivity.
Defined.

Lemma clean_title_shape_witness :
  @py_isspace ascii_db SPACE = true
  /\ @py_isalnum ascii_db DOT = false
  /\ ~ In DOT (@clean_title ascii_db (lit "  Dr. Who -- vol.2 .epub")).
Proof.
  split; [reflexivity|]. split; [reflexivity|].
  apply (@clean_title_shape ascii_db eq_refl eq_refl
           (lit "  Dr. Who -- vol.2 .epub")).
Defined.

(** ** Integers, payloads and the pagination callback *)

Lemma in_range_spec (lo hi c : N) :
  in_range lo hi c = true <-> (lo <= c <= hi)%N.
Proof.
  unfold in_range. rewrite andb_true_iff, !N.leb_le. reflexivity.
Qed.

Lemma digit_value_digit (d : N) :
  (d < 10)%N -> digit_value (48 + d)%N = Some d /\ is_digit (48 + d)%N.
Proof.
  intros Hd. unfold digit_value, is_digit.
  assert (H : in_range 48 57 (48 + d)%N = true) by (apply in_range_spec; lia).
  rewrite H. split; [f_equal; lia|reflexivity].
Qed.

Lemma parse_digits_snoc (ds : str) (a n d : N) :
  parse_digits a ds = Some n -> (d < 10)%N ->
  parse_digits a (ds ++ [(48 + d)%N]) = Some (10 * n + d)%N.
Proof.
  revert a. induction ds as [|c ds IH]; intros a Hp Hd;
    cbn [parse_digits app] in *.
  - injection Hp as ->. destruct (digit_value_digit Hd) as [-> _]. reflexivity.
  - destruct (digit_value c); [|discriminate Hp]. apply IH; assumption.
Qed.

Lemma digits_of_S (fuel : nat) (n : N) (acc : str) :
  digits_of (S fuel) n acc
  = if (n / 10 =? 0)%N then (48 + n mod 10)%N :: acc
    else digits_of fuel (n / 10)%N ((48 + n mod 10)%N :: acc).
Proof. reflexivity. Qed.

Lemma digits_of_spec (fuel : nat) :
  forall (n : N) (acc : str), (n < 2 ^ N.of_nat fuel)%N ->
  exists ds, digits_of (S fuel) n acc = ds ++ acc
             /\ ds <> [] /\ Forall is_digit ds /\ parse_digits 0 ds = Some n.
Proof.
  induction fuel as [|fuel IH]; intros n acc Hn.
  - assert (n = 0%N) as -> by (simpl in Hn; lia).
    exists [48%N]. repeat split; try discriminate. repeat constructor.
  - assert (Hd : (n mod 10 < 10)%N) by (apply N.mod_lt; lia).
    destruct (digit_value_digit Hd) as [Hv Hdig].
    rewrite digits_of_S. destruct (N.eqb_spec (n / 10)%N 0%N) as [Hz|Hz].
    + exists [(48 + n mod 10)%N]. repeat split; try discriminate.
      * repeat constructor; exact Hdig.
      * cbn [parse_digits]. rewrite Hv. f_equal.
        pose proof (N.div_mod n 10 ltac:(lia)). lia.
    + assert (Hq : (n / 10 < 2 ^ N.of_nat fuel)%N).
      { rewrite Nat2N.inj_succ, N.pow_succ_r' in Hn.
        apply N.Div0.div_lt_upper_bound. lia. }
      destruct (IH (n / 10)%N ((48 + n mod 10)%N :: acc) Hq)
        as (ds & Eds & Hne & Hall & Hp).
      exists (ds ++ [(48 + n mod 10)%N]). repeat split.
      * rewrite Eds, <- app_assoc. reflexivity.
      * destruct ds; discriminate.
      * apply Forall_app. split; [exact Hall|]. repeat constructor; exact Hdig.
      * erewrite parse_digits_snoc by eassumption. f_equal.
        pose proof (N.div_mod n 10 ltac:(lia)). lia.
Qed.

Lemma str_of_N_spec (n : N) :
  str_of_N n <> [] /\ Forall is_digit (str_of_N n)
  /\ parse_number (str_of_N n) = Some n.
Proof.
  unfold str_of_N.
  destruct (@digits_of_spec (N.to_nat (N.size n)) n []) as (ds & Eds & Hne & Hall & Hp).
  { rewrite N2Nat.id. apply N.size_gt. }
  rewrite Eds, app_nil_r. repeat split; try assumption.
  destruct ds; [congruence|exact Hp].
Qed.

Lemma str_of_Z_chars (z : Z) : Forall is_int_char (str_of_Z z).
Proof.
  unfold str_of_Z. destruct (z <? 0)%Z.
  - constructor; [right; reflexivity|].
    eapply Forall_impl; [|apply str_of_N_spec]. intros c Hc; left; exact Hc.
  - eapply Forall_impl; [|apply str_of_N_spec]. intros c Hc; left; exact Hc.
Qed.

Lemma break_at_first (sep : char) (a r : str) :
  ~ In sep a -> break_at sep (a ++ sep :: r) = (a, Some r).
Proof.
  induction a as [|c a IH]; intros Hin; simpl.
  - rewrite N.eqb_refl. reflexivity.
  - destruct (N.eqb_spec c sep) as [->|_].
    + exfalso. apply Hin. left; reflexivity.
    + rewrite IH; [reflexivity|]. intros H; apply Hin; right; exact H.
Qed.

Lemma str_of_Z_no_underscore (z : Z) : ~ In UNDERSCORE (str_of_Z z).
Proof.
  intros Hin. pose proof (str_of_Z_chars z) as Hall.
  rewrite Forall_forall in Hall. destruct (Hall _ Hin) as [H|H].
  - apply in_range_spec in H. unfold UNDERSCORE in H. lia.
  - discriminate H.
Qed.

Lemma split_page_payload (p : Z) (q : str) :
  split_char UNDERSCORE 2 (page_payload p q) = [lit "page"; str_of_Z p; q].
Proof.
  unfold page_payload.
  change (lit "page_") with (lit "page" ++ [UNDERSCORE]).
  rewrite <- app_assoc. cbn [split_char].
  change ([UNDERSCORE] ++ str_of_Z p ++ [UNDERSCORE] ++ q)
    with (UNDERSCORE :: (str_of_Z p ++ UNDERSCORE :: q)).
  rewrite break_at_first.
  2:{ vm_compute. intuition discriminate. }
  rewrite break_at_first by apply str_of_Z_no_underscore.
  reflexivity.
Qed.

Section PyIntFacts.
Context {U : UnicodeDB}.

Lemma drop_while_head (f : char -> bool) (s : str) :
  Forall (fun c => f c = false) s -> drop_while f s = s.
Proof.
  intros Hs. destruct Hs as [|c s Hc _]; [reflexivity|].
  simpl. rewrite Hc. reflexivity.
Qed.

Lemma strip_fixed (s : str) :
  Forall (fun c => py_isspace c = false) s -> strip s = s.
Proof.
  intros Hs. unfold strip.
  rewrite (drop_while_head _ Hs).
  rewrite drop_while_head by (apply Forall_rev; exact Hs).
  apply rev_involutive.
Qed.

Lemma int_char_ascii (c : char) :
  is_int_char c -> ascii_of_char c = Some c /\ c_isspace c = false.
Proof.
  intros Hc.
  assert (Hr : (45 <= c <= 57)%N).
  { destruct Hc as [H| ->]; [apply in_range_spec in H; lia|unfold HYPHEN; lia]. }
  split.
  - unfold ascii_of_char. destruct (N.ltb_spec c 127); [reflexivity|lia].
  - unfold c_isspace, in_range, SPACE. apply orb_false_iff. split.
    + apply andb_false_iff. right. apply N.leb_gt. lia.
    + apply N.eqb_neq. lia.
Qed.

Lemma ascii_of_str_int_chars (s : str) :
  Forall is_int_char s -> ascii_of_str s = Some s.
Proof.
  induction 1 as [|c s Hc _ IH]; [reflexivity|].
  cbn [ascii_of_str]. rewrite (proj1 (int_char_ascii Hc)), IH. reflexivity.
Qed.

Lemma grouped_digits_plain (s : str) :
  Forall is_digit s -> forall acc, grouped_digits acc s = parse_digits acc s.
Proof.
  induction 1 as [|c s Hc _ IH]; intros acc; [reflexivity|].
  cbn [grouped_digits parse_digits].
  destruct (N.eqb_spec c UNDERSCORE) as [E|_].
  - apply in_range_spec in Hc. unfold UNDERSCORE in E. lia.
  - destruct (digit_value c); [apply IH|reflexivity].
Qed.

Lemma int_literal_plain (s : str) :
  Forall is_digit s -> int_literal s = parse_number s.
Proof.
  intros Hs. destruct Hs as [|c s Hc Hs]; [reflexivity|].
  cbn [int_literal parse_number parse_digits].
  destruct (digit_value c) as [v|]; [|reflexivity].
  apply (grouped_digits_plain Hs).
Qed.

Lemma literal_of_digits (s : str) :
  Forall is_digit s ->
  int_literal (rev (drop_while c_isspace (rev s))) = parse_number s.
Proof.
  intros Hs. rewrite drop_while_head.
  - rewrite rev_involutive. apply int_literal_plain; exact Hs.
  - apply Forall_rev. eapply Forall_impl; [|exact Hs].
    intros c Hc. apply int_char_ascii. left; exact Hc.
Qed.

Lemma py_int_str_of_Z (z : Z) : py_int (str_of_Z z) = Some z.
Proof.
  unfold py_int. rewrite (ascii_of_str_int_chars (str_of_Z_chars z)).
  unfold long_from_string. rewrite drop_while_head.
  2:{ eapply Forall_impl; [|apply str_of_Z_chars].
      intros c Hc. apply int_char_ascii; exact Hc. }
  unfold str_of_Z. destruct (Z.ltb_spec z 0) as [Hz|Hz].
  - rewrite N.eqb_refl.
    destruct (str_of_N_spec (Z.to_N (- z))) as (_ & Hall & Hp).
    rewrite (literal_of_digits Hall), Hp. simpl. f_equal. lia.
  - destruct (str_of_N_spec (Z.to_N z)) as (Hne & Hall & Hp).
    destruct (str_of_N (Z.to_N z)) as [|c s]; [congruence|].
    assert (Hc : (48 <= c <= 57)%N).
    { inversion Hall as [|? ? Hc _]. apply in_range_spec; exact Hc. }
    destruct (N.eqb_spec c HYPHEN) as [E|_]; [unfold HYPHEN in E; lia|].
    destruct (N.eqb_spec c 43%N) as [E|_]; [lia|].
    rewrite (literal_of_digits Hall), Hp. simpl. f_equal. lia.
Qed.

(** C7.  The navigation payload round-trips: for every page number [p]
    and every query text [q], splitting "page_<p>_<q>" at its first two
    underscores and reading the page with [int] gives back [(p, q)], so the
    click on the button runs the search of [q] at page [p] and shows its
    result; when the offset of that page is beyond what SQLite can bind,
    the search raises and the click is answered with the error text. *)
Theorem page_payload_round_trip (p : Z) (q : str) :
  decode_page_payload (page_payload p q) = Some (p, q)
  /\ forall (E : SqlEngine) (db : Database) (ads : list (str * str)),
       handle_pagination db (page_payload p q) ads
       = if search_books_overflows p per_page_default then (db, None)
         else
           (fst (search_books db q p per_page_default),
            Some (format_search_results
                    (fst (snd (search_books db q p per_page_default)))
                    (snd (snd (search_books db q p per_page_default)))
                    p q ads)).
Proof.
  assert (Hd : decode_page_payload (page_payload p q) = Some (p, q)).
  { unfold decode_page_payload.
    rewrite split_page_payload, py_int_str_of_Z. reflexivity. }
  split; [exact Hd|].
  intros E db ads. unfold handle_pagination. rewrite Hd.
  destruct (search_books_overflows p per_page_default); [reflexivity|].
  destruct (search_books db q p per_page_default) as [db' [results total]].
  reflexivity.
Qed.
End PyIntFacts.

Lemma page_payload_round_trip_witness :
  @decode_page_payload ascii_db (page_payload 2 (lit "rust_in action"))
  = Some (2%Z, lit "rust_in action")
  /\ @handle_pagination ascii_db ascii_engine shelf_store
       (page_payload 3 (lit "vol")) []
     = (shelf_store,
        Some (format_search_results
                (fst (snd (@search_books ascii_engine shelf_store (lit "vol") 3 10)))
                23 3 (lit "vol") [])).
Proof.
  split.
  - apply (@page_payload_round_trip ascii_db 2 (lit "rust_in action")).
  - rewrite (proj2 (@page_payload_round_trip ascii_db 3 (lit "vol"))
               ascii_engine shelf_store []).
    reflexivity.
Defined.

(** ** The catalogue store *)

Lemma str_eqb_eq (a b : str) : str_eqb a b = true <-> a = b.
Proof.
  unfold str_eqb. destruct (list_eq_dec N.eq_dec a b); split; congruence.
Qed.

Lemma str_eqb_neq (a b : str) : str_eqb a b = false <-> a <> b.
Proof.
  unfold str_eqb. destruct (list_eq_dec N.eq_dec a b); split; congruence.
Qed.

(** *** check_book_exists and add_book *)

Lemma find_title_first (t : str) (rows : list Ebook) :
  match find (fun e => str_eqb (title e) t) rows with
  | Some e => exists pre post,
      rows = pre ++ e :: post /\ title e = t
      /\ Forall (fun x => title x <> t) pre
  | None => Forall (fun x => title x <> t) rows
  end.
Proof.
  induction rows as [|x rows IH]; simpl; [constructor|].
  destruct (str_eqb (title x) t) eqn:Ex.
  - exists [], rows. repeat split; [apply str_eqb_eq; exact Ex|constructor].
  - apply str_eqb_neq in Ex.
    destruct (find (fun e => str_eqb (title e) t) rows) as [e|].
    + destruct IH as (pre & post & -> & Ht & Hpre).
      exists (x :: pre), post. repeat split; [exact Ht|].
      constructor; assumption.
    + constructor; assumption.
Qed.

Lemma check_book_exists_scan (db : Database) (t : str) :
  match check_book_exists db t with
  | Some r => exists pre e post,
      ebooks db = pre ++ e :: post /\ r = book_tuple e /\ title e = t
      /\ Forall (fun x => title x <> t) pre
  | None => Forall (fun x => title x <> t) (ebooks db)
  end.
Proof.
  unfold check_book_exists.
  pose proof (find_title_first t (ebooks db)) as H.
  destruct (find (fun e => str_eqb (title e) t) (ebooks db)) as [e|]; simpl.
  - destruct H as (pre & post & E & Ht & Hpre).
    exists pre, e, post. repeat split; assumption.
  - exact H.
Qed.

(** C2, as the code has it.  [check_book_exists] returns a stored record
    of exactly that title whenever there is one, and nothing otherwise;
    among several records of one title it returns the first in the order
    of insertion, every row before it having another title. *)
Theorem check_book_exists_returns_first_match (db : Database) (t : str) :
  match check_book_exists db t with
  | Some r => exists pre e post,
      ebooks db = pre ++ e :: post /\ r = book_tuple e /\ title e = t
      /\ Forall (fun x => title x <> t) pre
  | None => Forall (fun x => title x <> t) (ebooks db)
  end.
Proof. exact (check_book_exists_scan db t). Qed.

(** C2, as stated, fails: of two records titled "X" the lookup returns the
    one inserted first, not the one inserted last. *)
Lemma check_book_exists_not_most_recent :
  check_book_exists twin_store (lit "X")
    = Some (lit "X", 1%Z, (-1001234567890)%Z, lit "file-1")
  /\ latest_inserted_with_title twin_store (lit "X")
    = Some (lit "X", 2%Z, (-1001234567890)%Z, lit "file-2")
  /\ check_book_exists twin_store (lit "X")
     <> latest_inserted_with_title twin_store (lit "X").
Proof.
  split; [reflexivity|]. split; [reflexivity|].
  vm_compute. intros H. discriminate H.
Qed.

Lemma check_book_exists_present (db : Database) (t : str) :
  (exists e, In e (ebooks db) /\ title e = t) ->
  exists r, check_book_exists db t = Some r.
Proof.
  intros (e & Hin & Ht).
  pose proof (check_book_exists_scan db t) as H.
  destruct (check_book_exists db t) as [r|]; [exists r; reflexivity|].
  rewrite Forall_forall in H. exfalso. exact (H e Hin Ht).
Qed.

(** C5.  In every store that holds an entry titled [t], the lookup of [t]
    finds a record, and [add_book] with that title returns [False] and
    leaves the store exactly as it was. *)
Theorem add_book_existing_title (db : Database) (t : str) :
  (exists e, In e (ebooks db) /\ title e = t) ->
  forall (now mid cid : Z) (fid : str),
    (exists r, check_book_exists db t = Some r)
    /\ add_book db now t mid cid fid = (db, false).
Proof.
  intros Hex now mid cid fid.
  destruct (check_book_exists_present db Hex) as [r Hr].
  split; [exists r; exact Hr|].
  unfold add_book. rewrite Hr. reflexivity.
Qed.

Lemma add_book_existing_title_witness :
  (exists e, In e (ebooks one_book_store) /\ title e = lit "Rust Book")
  /\ add_book one_book_store 1700000100 (lit "Rust Book") 8 (-1001234567890)
       (lit "file-8")
     = (one_book_store, false).
Proof.
  assert (H : exists e, In e (ebooks one_book_store) /\ title e = lit "Rust Book").
  { exists rust_book. split; [left; reflexivity|reflexivity]. }
  split; [exact H|].
  apply (@add_book_existing_title one_book_store (lit "Rust Book") H).
Defined.

(** *** check_message_exists looks at the table *)

Lemma check_message_exists_row (db : Database) (e : Ebook) :
  In e (ebooks db) ->
  check_message_exists db (chat_id e) (message_id e) = true.
Proof.
  intros Hin. unfold check_message_exists.
  assert (Hf : In e (filter (same_message (chat_id e) (message_id e)) (ebooks db))).
  { apply filter_In. split; [exact Hin|].
    unfold same_message. rewrite !Z.eqb_refl. reflexivity. }
  destruct (filter (same_message (chat_id e) (message_id e)) (ebooks db));
    [contradiction|].
  apply Z.ltb_lt. simpl length. lia.
Qed.

Lemma limit_offset_incl (A : Type) (limit offset : Z) (l : list A) (x : A) :
  In x (limit_offset limit offset l) -> In x l.
Proof.
  unfold limit_offset. intros H.
  assert (Hskip : forall y, In y (skipn (Z.to_nat offset) l) -> In y l).
  { intros y Hy. rewrite <- (firstn_skipn (Z.to_nat offset) l).
    apply in_or_app. right; exact Hy. }
  destruct (limit <? 0)%Z; [exact (Hskip _ H)|].
  apply Hskip.
  rewrite <- (firstn_skipn (Z.to_nat limit) (skipn (Z.to_nat offset) l)).
  apply in_or_app. left; exact H.
Qed.

Lemma limit_offset_length (A : Type) (limit offset : Z) (l : list A) :
  (length (limit_offset limit offset l) <= length l - Z.to_nat offset)%nat.
Proof.
  unfold limit_offset. destruct (limit <? 0)%Z.
  - rewrite length_skipn. lia.
  - rewrite length_firstn, length_skipn. lia.
Qed.

Lemma insert_by_date_perm (e : Ebook) (l : list Ebook) :
  Permutation (insert_by_date e l) (e :: l).
Proof.
  induction l as [|x l IH]; simpl; [reflexivity|].
  destruct (added_date x <=? added_date e)%Z; [reflexivity|].
  rewrite IH. apply perm_swap.
Qed.

Lemma order_by_date_desc_perm (l : list Ebook) :
  Permutation (order_by_date_desc l) l.
Proof.
  induction l as [|x l IH]; simpl; [reflexivity|].
  rewrite insert_by_date_perm. constructor. exact IH.
Qed.

Lemma existsb_str_eqb (t : str) (seen : list str) :
  existsb (str_eqb t) seen = true <-> In t seen.
Proof.
  rewrite existsb_exists. split.
  - intros (x & Hin & Hx). apply str_eqb_eq in Hx. subst. exact Hin.
  - intros Hin. exists t. split; [exact Hin|apply str_eqb_eq; reflexivity].
Qed.

Lemma first_of_each_title_incl (seen : list str) (l : list Ebook) (e : Ebook) :
  In e (first_of_each_title seen l) -> In e l.
Proof.
  revert seen. induction l as [|x l IH]; intros seen H; simpl in *; [exact H|].
  destruct (existsb (str_eqb (title x)) seen).
  - right. exact (IH _ H).
  - destruct H as [H|H]; [left; exact H|right; exact (IH _ H)].
Qed.

Lemma first_of_each_title_titles (l : list Ebook) :
  forall seen,
    NoDup (map title (first_of_each_title seen l))
    /\ forall t, In t (map title (first_of_each_title seen l))
                 <-> In t (map title l) /\ ~ In t seen.
Proof.
  induction l as [|x l IH]; intros seen; simpl.
  - split; [constructor|]. intros t. tauto.
  - destruct (existsb (str_eqb (title x)) seen) eqn:Ex.
    + apply existsb_str_eqb in Ex. destruct (IH seen) as [Hnd Hin].
      split; [exact Hnd|]. intros t. rewrite Hin. split.
      * intros [H1 H2]. split; [right; exact H1|exact H2].
      * intros [[H1|H1] H2]; [subst; contradiction|split; assumption].
    + assert (Hx : ~ In (title x) seen).
      { intros H. apply existsb_str_eqb in H. congruence. }
      destruct (IH (title x :: seen)) as [Hnd Hin]. simpl. split.
      * constructor; [|exact Hnd]. rewrite Hin. simpl. tauto.
      * intros t. rewrite Hin. simpl. split.
        -- intros [H|[H1 H2]]; [subst; tauto|tauto].
        -- intros [[H|H] H2]; [left; exact H|].
           destruct (list_eq_dec N.eq_dec (title x) t); tauto.
Qed.

Lemma insert_ranked_perm (e : Ebook) (l : list Ebook) :
  Permutation (insert_ranked e l) (e :: l).
Proof.
  induction l as [|x l IH]; simpl; [reflexivity|].
  destruct (listed_before e x); [reflexivity|].
  rewrite IH. apply perm_swap.
Qed.

Lemma order_ranked_perm (l : list Ebook) : Permutation (order_ranked l) l.
Proof.
  induction l as [|x l IH]; simpl; [reflexivity|].
  rewrite insert_ranked_perm. constructor. exact IH.
Qed.

Section SearchFacts.
Context {E : SqlEngine}.

Lemma ranked_books_incl (db : Database) (pattern : str) (e : Ebook) :
  In e (ranked_books db pattern) -> In e (ebooks db).
Proof.
  unfold ranked_books, matching_rows. intros H.
  apply (Permutation_in _ (order_ranked_perm _)) in H.
  apply first_of_each_title_incl in H.
  apply (Permutation_in _ (order_by_date_desc_perm _)) in H.
  apply filter_In in H. exact (proj1 H).
Qed.

Lemma ranked_books_count (db : Database) (pattern : str) :
  length (ranked_books db pattern) = length (distinct_titles db pattern).
Proof.
  unfold ranked_books, distinct_titles.
  set (rows := matching_rows db pattern).
  destruct (first_of_each_title_titles (order_by_date_desc rows) [])
    as [Hnd Hin].
  rewrite (Permutation_length (order_ranked_perm _)).
  rewrite <- (length_map title).
  apply Permutation_length, NoDup_Permutation;
    [exact Hnd|apply NoDup_nodup|].
  intros t. rewrite Hin, nodup_In. split.
  - intros [H _]. revert H. apply Permutation_in, Permutation_map.
    apply order_by_date_desc_perm.
  - intros H. split; [|intros []]. revert H.
    apply Permutation_in, Permutation_map, Permutation_sym.
    apply order_by_date_desc_perm.
Qed.

Lemma search_rows_stored (db : Database) (pattern : str) (limit offset : Z) :
  Forall (stored_in db) (map fst (search_rows db pattern limit offset)).
Proof.
  unfold search_rows. rewrite map_map. cbn [fst].
  apply Forall_forall. intros r Hr. apply in_map_iff in Hr.
  destruct Hr as (e & <- & He). exists e. split; [|reflexivity].
  eapply ranked_books_incl, limit_offset_incl; exact He.
Qed.

Lemma filter_deleted_stored (db : Database) (results : list BookTuple) :
  Forall (stored_in db) results ->
  forall (valid_results : list BookTuple) (actual_count : Z),
    filter_deleted db results valid_results actual_count
    = (db, (valid_results ++ results, actual_count)).
Proof.
  induction 1 as [|r results Hr _ IH]; intros valid n; simpl.
  - rewrite app_nil_r. reflexivity.
  - destruct Hr as (e & Hin & <-). unfold book_tuple.
    rewrite (check_message_exists_row db e Hin), IH, <- app_assoc.
    reflexivity.
Qed.

(** No row a search reads is ever found missing: the search returns the
    page and the count of the query as they are and leaves the table
    alone. *)
Lemma search_books_unreconciled (db : Database) (query : str) (page per_page : Z) :
  search_books db query page per_page
  = (db,
     match limit_offset per_page ((page - 1) * per_page)
             (ranked_books db (like_pattern query)) with
     | [] => ([], 0%Z)
     | rows => (map book_tuple rows,
                Z.of_nat (length (ranked_books db (like_pattern query))))
     end).
Proof.
  unfold search_books.
  pose proof (search_rows_stored db (like_pattern query) per_page
                ((page - 1) * per_page)) as Hst.
  cbv zeta. unfold search_rows in *.
  destruct (limit_offset per_page ((page - 1) * per_page)
              (ranked_books db (like_pattern query))) as [|e rows];
    [reflexivity|].
  cbn [map] in *. rewrite (filter_deleted_stored Hst). cbn [app fst].
  rewrite map_map. reflexivity.
Qed.

(** C9.  For a page size and an offset that SQLite can bind, whenever the
    paginated query has no row for the page, and so for every page whose
    offset is not below the number of matching titles, [search_books]
    returns the empty list with the count 0 and leaves the store as it
    was, however many titles match. *)
Theorem search_books_empty_page (db : Database) (query : str) (page per_page : Z) :
  search_books_overflows page per_page = false ->
  search_rows db (like_pattern query) per_page ((page - 1) * per_page) = []
  \/ (Z.of_nat (length (ranked_books db (like_pattern query)))
      <= (page - 1) * per_page)%Z ->
  search_books db query page per_page = (db, ([], 0%Z)).
Proof.
  intros _ H.
  assert (Hrows : search_rows db (like_pattern query) per_page
                    ((page - 1) * per_page) = []).
  { destruct H as [H|H]; [exact H|].
    unfold search_rows.
    pose proof (limit_offset_length per_page ((page - 1) * per_page)
                  (ranked_books db (like_pattern query))) as Hlen.
    destruct (limit_offset per_page ((page - 1) * per_page)
                (ranked_books db (like_pattern query))); [reflexivity|].
    simpl length in Hlen. lia. }
  unfold search_books. cbv zeta. rewrite Hrows. reflexivity.
Qed.

Lemma total_pages_of_ceiling (total k : Z) :
  total_pages_of total = k <-> (10 * (k - 1) < total <= 10 * k)%Z.
Proof.
  unfold total_pages_of, per_page_default. split.
  - intros <-.
    pose proof (Z.div_mod (total + 10 - 1) 10 ltac:(lia)).
    pose proof (Z.mod_pos_bound (total + 10 - 1) 10 ltac:(lia)). lia.
  - intros H. symmetry. apply (Z.div_unique _ _ _ (total + 9 - 10 * k)%Z); lia.
Qed.

(** C8.  The number of pages is the ceiling of the count divided by the
    page size 10: it is the one [k] with [10 * (k - 1) < total <= 10 * k],
    for the count 23 it is 3 and the keyboard of a page of results is built
    with 3; and in a store where 23 titles match, the search for page 3
    returns at most 3 entries. *)
Theorem pagination_math (db : Database) (query : str) :
  length (distinct_titles db (like_pattern query)) = 23%nat ->
  total_pages_of 23 = 3%Z
  /\ (forall total k : Z,
        total_pages_of total = k <-> (10 * (k - 1) < total <= 10 * k)%Z)
  /\ (forall b books page ads,
        snd (format_search_results (b :: books) 23 page query ads)
        = Some (create_pagination_keyboard page 3 query ads))
  /\ (length (fst (snd (search_books db query 3 10))) <= 3)%nat.
Proof.
  intros H23. split; [reflexivity|]. split; [exact total_pages_of_ceiling|].
  split; [reflexivity|].
  rewrite search_books_unreconciled. cbn [snd].
  pose proof (limit_offset_length 10 ((3 - 1) * 10)
                (ranked_books db (like_pattern query))) as Hlen.
  rewrite ranked_books_count, H23 in Hlen.
  destruct (limit_offset 10 ((3 - 1) * 10)
              (ranked_books db (like_pattern query))) as [|e rows];
    [simpl; lia|].
  cbn [fst]. rewrite length_map.
  change (Z.to_nat ((3 - 1) * 10)) with 20%nat in Hlen. lia.
Qed.
End SearchFacts.

Lemma search_books_empty_page_witness :
  @ranked_books ascii_engine one_book_store (like_pattern (lit "rust")) = [rust_book]
  /\ search_books_overflows 2 10 = false
  /\ @search_books ascii_engine one_book_store (lit "rust") 2 10
     = (one_book_store, ([], 0%Z)).
Proof.
  split; [reflexivity|]. split; [reflexivity|].
  apply (@search_books_empty_page ascii_engine one_book_store (lit "rust") 2 10).
  - reflexivity.
  - right. vm_compute. intros H. discriminate H.
Defined.

Lemma pagination_math_witness :
  length (@distinct_titles ascii_engine shelf_store (like_pattern (lit "vol"))) = 23%nat
  /\ (length (fst (snd (@search_books ascii_engine shelf_store (lit "vol") 3 10)))
      <= 3)%nat.
Proof.
  split; [reflexivity|].
  apply (@pagination_math ascii_engine shelf_store (lit "vol")).
  reflexivity.
Defined.

(** C1.  The store holds one book whose message is gone from the chat.
    The search still returns it, counts it, and deletes nothing:
    [check_message_exists] asks the table, where the row is, and not the
    chat. *)
Theorem search_books_keeps_stale_row :
  resolves emptied_chats rust_book = false
  /\ @search_books ascii_engine one_book_store (lit "Rust") 1 10
     = (one_book_store, ([book_tuple rust_book], 1%Z)).
Proof. split; reflexivity. Qed.

(** *** handle_document *)

Section UploadFacts.
Context {U : UnicodeDB}.

(** A title that is in the table is always reported as already recorded:
    the message check of the upload cannot fail on a row the lookup has
    just returned. *)
Lemma handle_document_existing_title (db : Database) (now : Z)
    (c : char) (name : str) (mid cid : Z) (fid : str)
    (t : str) (m k : Z) (f : str) :
  existsb (ends_with (py_lower (c :: name))) supported_extensions = true ->
  check_book_exists db (clean_title (c :: name)) = Some (t, m, k, f) ->
  handle_document db now (Some (c :: name)) mid cid fid
  = (db, AlreadyRecorded t k m).
Proof.
  intros Hext Hex. unfold handle_document. rewrite Hext. cbn [negb].
  rewrite Hex.
  pose proof (check_book_exists_scan db (clean_title (c :: name))) as Hscan.
  rewrite Hex in Hscan. destruct Hscan as (pre & e & post & Erows & Er & _).
  injection Er as -> -> -> ->.
  rewrite check_message_exists_row; [reflexivity|].
  rewrite Erows. apply in_or_app. right. left. reflexivity.
Qed.
End UploadFacts.

(** C3.  The store holds the book "Rust Book" whose message is gone from
    the chat.  Uploading "Rust Book.pdf" again is answered as a duplicate:
    nothing is written, the old row stays, and [add_book] with that title
    returns [False]. *)
Theorem handle_document_keeps_stale_row :
  forall now : Z,
    resolves emptied_chats rust_book = false
    /\ @handle_document ascii_db one_book_store now (Some (lit "Rust Book.pdf"))
         8 (-1001234567890) (lit "file-8")
       = (one_book_store, AlreadyRecorded (lit "Rust Book") (-1001234567890) 7)
    /\ add_book one_book_store now (lit "Rust Book") 8 (-1001234567890) (lit "file-8")
       = (one_book_store, false).
Proof. intros now. repeat split. Qed.

(** *** Advertisements *)

Lemma remove_advertisement_reports_presence (db : Database) (id : Z) :
  snd (remove_advertisement db id) = true
  <-> exists a, In a (advertisements db) /\ ad_id a = id.
Proof.
  unfold remove_advertisement. cbn [snd]. split.
  - intros H. apply Z.ltb_lt in H.
    destruct (filter (fun a => (ad_id a =? id)%Z) (advertisements db))
      as [|a l] eqn:Ef; [simpl in H; lia|].
    assert (Hin : In a (filter (fun a => (ad_id a =? id)%Z) (advertisements db)))
      by (rewrite Ef; left; reflexivity).
    apply filter_In in Hin. destruct Hin as [Hin Hid].
    exists a. split; [exact Hin|apply Z.eqb_eq; exact Hid].
  - intros (a & Hin & Hid). apply Z.ltb_lt.
    assert (Hf : In a (filter (fun a => (ad_id a =? id)%Z) (advertisements db))).
    { apply filter_In. split; [exact Hin|apply Z.eqb_eq; exact Hid]. }
    destruct (filter (fun a => (ad_id a =? id)%Z) (advertisements db));
      [contradiction|simpl length; lia].
Qed.

(** C4.  The advertisement 1 is already inactive: [get_advertisement] does
    not find it and [edit_advertisement] returns [False], yet
    [remove_advertisement] returns [True], the store being the same before
    and after. *)
Theorem remove_advertisement_inactive_reports_true :
  get_advertisement retired_ad_store 1 = None
  /\ snd (edit_advertisement retired_ad_store 1 (lit "New") (lit "https://t.me/new")) = false
  /\ remove_advertisement retired_ad_store 1 = (retired_ad_store, true).
Proof. repeat split. Qed.

(* ================================================================== *)
(** * Further properties of the code *)
(* ================================================================== *)

(** ** The catalogue: insertion and removal *)

Lemma find_title_none (t : str) (rows : list Ebook) :
  (forall e, In e rows -> title e <> t) ->
  find (fun e => str_eqb (title e) t) rows = None.
Proof.
  induction rows as [|x rows IH]; intros H; simpl; [reflexivity|].
  destruct (str_eqb (title x) t) eqn:Ex.
  - apply str_eqb_eq in Ex. exfalso. exact (H x (or_introl eq_refl) Ex).
  - apply IH. intros e He. apply H. right; exact He.
Qed.

Lemma find_app_some (A : Type) (f : A -> bool) (l l' : list A) (x : A) :
  find f l = Some x -> find f (l ++ l') = Some x.
Proof.
  induction l as [|y l IH]; simpl; [discriminate|].
  destruct (f y); [trivial|exact IH].
Qed.

Lemma find_app_none (A : Type) (f : A -> bool) (l l' : list A) :
  find f l = None -> find f (l ++ l') = find f l'.
Proof.
  induction l as [|y l IH]; simpl; [reflexivity|].
  destruct (f y); [discriminate|exact IH].
Qed.

Lemma check_book_exists_absent (db : Database) (t : str) :
  check_book_exists db t = None <-> (forall e, In e (ebooks db) -> title e <> t).
Proof.
  pose proof (check_book_exists_scan db t) as H. split.
  - intros E. rewrite E in H. rewrite Forall_forall in H. exact H.
  - intros Hno. unfold check_book_exists.
    rewrite (find_title_none _ Hno). reflexivity.
Qed.

Lemma add_book_cases (db : Database) (now : Z) (t : str) (mid cid : Z) (fid : str) :
  (check_book_exists db t <> None
   /\ add_book db now t mid cid fid = (db, false))
  \/ (check_book_exists db t = None
      /\ add_book db now t mid cid fid
         = (with_ebooks db (ebooks db ++ [new_row now t mid cid fid]), true)).
Proof.
  unfold add_book. destruct (check_book_exists db t) as [r|].
  - left. split; [discriminate|reflexivity].
  - right. split; reflexivity.
Qed.

Lemma check_book_exists_app (db : Database) (rows : list Ebook) (t : str) :
  check_book_exists (with_ebooks db (ebooks db ++ rows)) t
  = match check_book_exists db t with
    | Some r => Some r
    | None => check_book_exists (with_ebooks db rows) t
    end.
Proof.
  unfold check_book_exists. cbn [ebooks with_ebooks].
  destruct (find (fun e => str_eqb (title e) t) (ebooks db)) as [e|] eqn:Ef.
  - rewrite (find_app_some _ _ _ Ef). reflexivity.
  - rewrite (find_app_none _ _ _ Ef). reflexivity.
Qed.

(** X1.  Adding a book whose title no row has returns [True], appends
    exactly one row carrying the title, the message reference and the file
    id, leaves the advertisements alone, and the new record is then what
    the lookup of the title returns and what the message check finds. *)
Theorem add_book_fresh_title (db : Database) (now : Z) (t : str)
    (mid cid : Z) (fid : str) :
  (forall e, In e (ebooks db) -> title e <> t) ->
  let db' := fst (add_book db now t mid cid fid) in
  snd (add_book db now t mid cid fid) = true
  /\ ebooks db' = ebooks db ++ [new_row now t mid cid fid]
  /\ advertisements db' = advertisements db
  /\ check_book_exists db' t = Some (t, mid, cid, fid)
  /\ check_message_exists db' cid mid = true.
Proof.
  intros Hno. apply (proj2 (check_book_exists_absent db t)) in Hno.
  destruct (add_book_cases db now t mid cid fid) as [[Hex _]|[_ E]];
    [contradiction|].
  rewrite E. cbn [fst snd]. repeat split.
  - rewrite check_book_exists_app, Hno. unfold check_book_exists.
    cbn [ebooks with_ebooks find new_row title].
    assert (Ht : str_eqb t t = true) by (apply str_eqb_eq; reflexivity).
    rewrite Ht. reflexivity.
  - apply (check_message_exists_row
             (with_ebooks db (ebooks db ++ [new_row now t mid cid fid]))
             (new_row now t mid cid fid)).
    cbn [ebooks with_ebooks]. apply in_or_app. right. left. reflexivity.
Qed.

Lemma add_book_fresh_title_witness :
  (forall e, In e (ebooks one_book_store) -> title e <> lit "Go Book")
  /\ check_book_exists
       (fst (add_book one_book_store 1700000100 (lit "Go Book") 8 (-1001234567890)
               (lit "file-8")))
       (lit "Go Book")
     = Some (lit "Go Book", 8%Z, (-1001234567890)%Z, lit "file-8").
Proof.
  assert (H : forall e, In e (ebooks one_book_store) -> title e <> lit "Go Book").
  { intros e [<-|[]]. vm_compute. intros E. discriminate E. }
  split; [exact H|].
  apply (@add_book_fresh_title one_book_store 1700000100 (lit "Go Book") 8
           (-1001234567890) (lit "file-8") H).
Defined.

Lemma add_book_other_titles (db : Database) (now : Z) (t t' : str)
    (mid cid : Z) (fid : str) :
  t' <> t ->
  check_book_exists (fst (add_book db now t mid cid fid)) t'
  = check_book_exists db t'.
Proof.
  intros Hne.
  destruct (add_book_cases db now t mid cid fid) as [[_ E]|[_ E]];
    rewrite E; cbn [fst]; [reflexivity|].
  rewrite check_book_exists_app.
  destruct (check_book_exists db t') as [r|]; [reflexivity|].
  unfold check_book_exists. cbn [ebooks with_ebooks find new_row title].
  assert (Ht : str_eqb t t' = false) by (apply str_eqb_neq; congruence).
  rewrite Ht. reflexivity.
Qed.

Lemma add_book_title_present (db : Database) (now : Z) (t : str)
    (mid cid : Z) (fid : str) :
  check_book_exists (fst (add_book db now t mid cid fid)) t <> None.
Proof.
  destruct (add_book_cases db now t mid cid fid) as [[Hex E]|[Hno E]];
    rewrite E; cbn [fst]; [exact Hex|].
  rewrite check_book_exists_app, Hno. unfold check_book_exists.
  cbn [ebooks with_ebooks find new_row title].
  assert (Ht : str_eqb t t = true) by (apply str_eqb_eq; reflexivity).
  rewrite Ht. discriminate.
Qed.

(** X2.  Whatever the store and the outcome of a first [add_book], a second
    [add_book] with the same title returns [False] and leaves the store as
    the first call left it. *)
Theorem add_book_second_rejected (db : Database) (now now' : Z) (t : str)
    (mid cid mid' cid' : Z) (fid fid' : str) :
  let db1 := fst (add_book db now t mid cid fid) in
  add_book db1 now' t mid' cid' fid' = (db1, false).
Proof.
  cbv zeta.
  pose proof (add_book_title_present db now t mid cid fid) as Hp.
  destruct (add_book_cases (fst (add_book db now t mid cid fid)) now' t mid' cid' fid')
    as [[_ E]|[Hno _]]; [exact E|contradiction].
Qed.

Lemma add_book_keeps_unique (db : Database) (now : Z) (t : str)
    (mid cid : Z) (fid : str) :
  NoDup (map title (ebooks db)) ->
  NoDup (map title (ebooks (fst (add_book db now t mid cid fid)))).
Proof.
  intros Hnd.
  destruct (add_book_cases db now t mid cid fid) as [[_ E]|[Hno E]];
    rewrite E; cbn [fst]; [exact Hnd|].
  cbn [ebooks with_ebooks]. rewrite map_app. cbn [map new_row title].
  apply NoDup_rev in Hnd. rewrite <- (rev_involutive (map title (ebooks db) ++ [t])).
  apply NoDup_rev. rewrite rev_app_distr. cbn [rev app].
  constructor; [|exact Hnd].
  rewrite <- in_rev. intros Hin. apply in_map_iff in Hin.
  destruct Hin as (e & Ht & He).
  exact (proj1 (check_book_exists_absent db t) Hno e He Ht).
Qed.

(** X3.  [add_book] keeps the titles of the table pairwise different. *)
Theorem add_book_keeps_titles_unique (db : Database) (now : Z) (t : str)
    (mid cid : Z) (fid : str) :
  NoDup (map title (ebooks db)) ->
  NoDup (map title (ebooks (fst (add_book db now t mid cid fid)))).
Proof. apply add_book_keeps_unique. Qed.

Lemma add_book_keeps_titles_unique_witness :
  NoDup (map title (ebooks one_book_store))
  /\ NoDup (map title
              (ebooks (fst (add_book one_book_store 1700000100 (lit "Go Book") 8
                              (-1001234567890) (lit "file-8"))))).
Proof.
  assert (H : NoDup (map title (ebooks one_book_store))).
  { constructor; [intros []|constructor]. }
  split; [exact H|].
  apply (@add_book_keeps_titles_unique one_book_store 1700000100 (lit "Go Book")
           8 (-1001234567890) (lit "file-8") H).
Defined.

Lemma filter_same_message_removed (cid mid : Z) (rows : list Ebook) :
  filter (same_message cid mid)
    (filter (fun e => negb (same_message cid mid e)) rows) = [].
Proof.
  induction rows as [|x rows IH]; simpl; [reflexivity|].
  destruct (same_message cid mid x) eqn:Ex; simpl; [exact IH|].
  rewrite Ex. exact IH.
Qed.

Lemma filter_fixed (A : Type) (f : A -> bool) (l : list A) :
  filter f (filter f l) = filter f l.
Proof.
  induction l as [|x l IH]; simpl; [reflexivity|].
  destruct (f x) eqn:Ex; simpl; [rewrite Ex, IH|]; auto.
Qed.

(** X5.  [remove_deleted_messages] returns whether a row had that chat and
    message id; afterwards no row has them, the rows left are exactly the
    other rows, the advertisements are untouched, and a second call
    returns [False] and changes nothing. *)
Theorem remove_deleted_messages_effect (db : Database) (cid mid : Z) :
  let db' := fst (remove_deleted_messages db cid mid) in
  snd (remove_deleted_messages db cid mid) = check_message_exists db cid mid
  /\ check_message_exists db' cid mid = false
  /\ (forall e, In e (ebooks db')
                <-> In e (ebooks db) /\ same_message cid mid e = false)
  /\ advertisements db' = advertisements db
  /\ remove_deleted_messages db' cid mid = (db', false).
Proof.
  unfold remove_deleted_messages, check_message_exists. cbn [fst snd].
  cbn [ebooks with_ebooks advertisements].
  rewrite filter_same_message_removed.
  split; [reflexivity|]. split; [reflexivity|]. split; [|split].
  - intros e. rewrite filter_In, negb_true_iff. reflexivity.
  - reflexivity.
  - unfold with_ebooks. cbn [ebooks advertisements].
    rewrite filter_fixed. reflexivity.
Qed.

(** ** Search *)

Lemma insert_by_date_sorted (e : Ebook) (l : list Ebook) :
  StronglySorted not_older l -> StronglySorted not_older (insert_by_date e l).
Proof.
  induction 1 as [|x l Hl IH Hx]; simpl.
  - constructor; constructor.
  - destruct (Z.leb_spec (added_date x) (added_date e)) as [Hle|Hgt].
    + constructor; [constructor; assumption|].
      constructor; [exact Hle|].
      eapply Forall_impl; [|exact Hx]. unfold not_older. intros y Hy. lia.
    + constructor; [exact IH|].
      apply Forall_forall. intros y Hy.
      apply (Permutation_in _ (insert_by_date_perm e l)) in Hy.
      destruct Hy as [<-|Hy]; [unfold not_older; lia|].
      rewrite Forall_forall in Hx. exact (Hx _ Hy).
Qed.

Lemma order_by_date_desc_sorted (l : list Ebook) :
  StronglySorted not_older (order_by_date_desc l).
Proof.
  induction l as [|x l IH]; simpl; [constructor|].
  apply insert_by_date_sorted; exact IH.
Qed.

Lemma first_of_each_title_unseen (seen : list str) (l : list Ebook) (e : Ebook) :
  In e (first_of_each_title seen l) -> ~ In (title e) seen.
Proof.
  intros He. destruct (first_of_each_title_titles l seen) as [_ Hin].
  apply (Hin (title e)). apply in_map. exact He.
Qed.

Lemma first_of_each_title_sorted (l : list Ebook) :
  StronglySorted not_older l ->
  forall seen, StronglySorted not_older (first_of_each_title seen l).
Proof.
  induction 1 as [|x l Hl IH Hx]; intros seen; simpl; [constructor|].
  destruct (existsb (str_eqb (title x)) seen); [apply IH|].
  constructor; [apply IH|].
  apply Forall_forall. intros y Hy. apply first_of_each_title_incl in Hy.
  rewrite Forall_forall in Hx. exact (Hx _ Hy).
Qed.

Lemma first_of_each_title_latest (l : list Ebook) :
  StronglySorted not_older l ->
  forall seen e e',
    In e (first_of_each_title seen l) -> In e' l -> title e' = title e ->
    not_older e e'.
Proof.
  induction 1 as [|x l Hl IH Hx]; intros seen e e' He He' Ht; [contradiction|].
  simpl in He. rewrite Forall_forall in Hx.
  destruct (existsb (str_eqb (title x)) seen) eqn:Ex.
  - destruct He' as [<-|He']; [|exact (IH _ _ _ He He' Ht)].
    apply existsb_str_eqb in Ex. rewrite Ht in Ex.
    exfalso. exact (first_of_each_title_unseen _ _ _ He Ex).
  - destruct He as [<-|He].
    + destruct He' as [<-|He']; [unfold not_older; lia|exact (Hx _ He')].
    + destruct He' as [<-|He']; [|exact (IH _ _ _ He He' Ht)].
      exfalso. apply (first_of_each_title_unseen _ _ _ He).
      left. exact Ht.
Qed.

Lemma StronglySorted_skipn (A : Type) (R : A -> A -> Prop) (n : nat) (l : list A) :
  StronglySorted R l -> StronglySorted R (skipn n l).
Proof.
  revert l. induction n as [|n IH]; intros l Hl; [exact Hl|].
  destruct Hl as [|x l Hl _]; [constructor|]. simpl. apply IH; exact Hl.
Qed.

Lemma StronglySorted_firstn (A : Type) (R : A -> A -> Prop) (n : nat) (l : list A) :
  StronglySorted R l -> StronglySorted R (firstn n l).
Proof.
  revert l. induction n as [|n IH]; intros l Hl; [constructor|].
  destruct Hl as [|x l Hl Hx]; [constructor|]. simpl.
  constructor; [apply IH; exact Hl|].
  apply Forall_forall. intros y Hy. rewrite Forall_forall in Hx. apply Hx.
  rewrite <- (firstn_skipn n l). apply in_or_app. left; exact Hy.
Qed.

Lemma limit_offset_sorted (A : Type) (R : A -> A -> Prop) (limit offset : Z) (l : list A) :
  StronglySorted R l -> StronglySorted R (limit_offset limit offset l).
Proof.
  intros Hl. unfold limit_offset. destruct (limit <? 0)%Z.
  - apply StronglySorted_skipn; exact Hl.
  - apply StronglySorted_firstn, StronglySorted_skipn; exact Hl.
Qed.

Lemma NoDup_skipn (A : Type) (n : nat) (l : list A) : NoDup l -> NoDup (skipn n l).
Proof.
  intros H. rewrite <- (firstn_skipn n l) in H.
  exact (NoDup_app_remove_l _ _ H).
Qed.

Lemma NoDup_firstn (A : Type) (n : nat) (l : list A) : NoDup l -> NoDup (firstn n l).
Proof.
  intros H. rewrite <- (firstn_skipn n l) in H.
  exact (NoDup_app_remove_r _ _ H).
Qed.

Lemma limit_offset_map (A B : Type) (f : A -> B) (limit offset : Z) (l : list A) :
  map f (limit_offset limit offset l) = limit_offset limit offset (map f l).
Proof.
  unfold limit_offset. destruct (limit <? 0)%Z.
  - symmetry. apply skipn_map.
  - rewrite skipn_map, firstn_map. reflexivity.
Qed.

Lemma limit_offset_NoDup (A : Type) (limit offset : Z) (l : list A) :
  NoDup l -> NoDup (limit_offset limit offset l).
Proof.
  intros H. unfold limit_offset. destruct (limit <? 0)%Z.
  - apply NoDup_skipn; exact H.
  - apply NoDup_firstn, NoDup_skipn; exact H.
Qed.

Lemma insert_ranked_sorted (e : Ebook) (l : list Ebook) :
  StronglySorted not_older l -> StronglySorted not_older (insert_ranked e l).
Proof.
  induction 1 as [|x l Hl IH Hx]; simpl.
  - constructor; constructor.
  - destruct (listed_before e x) eqn:Eb; unfold listed_before in Eb.
    + assert (Hle : (added_date x <= added_date e)%Z).
      { apply orb_true_iff in Eb. destruct Eb as [Eb|Eb].
        - apply Z.ltb_lt in Eb. lia.
        - apply andb_true_iff in Eb. destruct Eb as [Eb _].
          apply Z.eqb_eq in Eb. lia. }
      constructor; [constructor; assumption|].
      constructor; [exact Hle|].
      eapply Forall_impl; [|exact Hx]. unfold not_older. intros y Hy. lia.
    + assert (Hle : (added_date e <= added_date x)%Z).
      { apply orb_false_iff in Eb. destruct Eb as [Eb _].
        apply Z.ltb_ge in Eb. exact Eb. }
      constructor; [exact IH|].
      apply Forall_forall. intros y Hy.
      apply (Permutation_in _ (insert_ranked_perm e l)) in Hy.
      destruct Hy as [<-|Hy]; [exact Hle|].
      rewrite Forall_forall in Hx. exact (Hx _ Hy).
Qed.

Lemma order_ranked_sorted (l : list Ebook) :
  StronglySorted not_older (order_ranked l).
Proof.
  induction l as [|x l IH]; simpl; [constructor|].
  apply insert_ranked_sorted; exact IH.
Qed.

Section SearchMore.
Context {E : SqlEngine}.

Lemma search_books_page_rows (db : Database) (query : str) (page per_page : Z) :
  search_books db query page per_page
  = (db, (map book_tuple (page_rows db query page per_page),
          match page_rows db query page per_page with
          | [] => 0%Z
          | _ => Z.of_nat (length (distinct_titles db (like_pattern query)))
          end)).
Proof.
  rewrite search_books_unreconciled, <- ranked_books_count. unfold page_rows.
  destruct (limit_offset per_page ((page - 1) * per_page)
              (ranked_books db (like_pattern query))); reflexivity.
Qed.

Lemma ranked_books_sorted (db : Database) (pattern : str) :
  StronglySorted not_older (ranked_books db pattern).
Proof. apply order_ranked_sorted. Qed.

Lemma ranked_books_titles_unique (db : Database) (pattern : str) :
  NoDup (map title (ranked_books db pattern)).
Proof.
  unfold ranked_books.
  apply (Permutation_NoDup
           (Permutation_map title (Permutation_sym (order_ranked_perm _)))).
  apply first_of_each_title_titles.
Qed.

Lemma ranked_books_latest (db : Database) (pattern : str) (e e' : Ebook) :
  In e (ranked_books db pattern) -> In e' (ebooks db) -> title e' = title e ->
  In e (ebooks db) /\ sql_like pattern (title e) = true /\ not_older e e'.
Proof.
  intros He He' Ht.
  apply (Permutation_in _ (order_ranked_perm _)) in He.
  assert (Hm : In e (matching_rows db pattern)).
  { apply first_of_each_title_incl in He.
    exact (Permutation_in _ (order_by_date_desc_perm _) He). }
  apply filter_In in Hm. destruct Hm as [Hin Hlike].
  split; [exact Hin|]. split; [exact Hlike|].
  apply (first_of_each_title_latest (order_by_date_desc_sorted _) _ _ _ He);
    [|exact Ht].
  apply (Permutation_in _ (Permutation_sym (order_by_date_desc_perm _))).
  apply filter_In. split; [exact He'|]. rewrite Ht. exact Hlike.
Qed.

(** X7.  The count [search_books] returns beside a page that is not empty
    is the number of different titles the pattern matches, whatever the
    page; beside an empty page it is 0. *)
Theorem search_books_count (db : Database) (query : str) (page per_page : Z) :
  let r := snd (search_books db query page per_page) in
  match fst r with
  | [] => snd r = 0%Z
  | _ => snd r = Z.of_nat (length (distinct_titles db (like_pattern query)))
  end.
Proof.
  rewrite search_books_page_rows. cbn [fst snd].
  destruct (page_rows db query page per_page); reflexivity.
Qed.

(** X8.  With a page size that is not negative, [search_books] returns at
    most that many entries. *)
Theorem search_books_page_size (db : Database) (query : str) (page per_page : Z) :
  (0 <= per_page)%Z ->
  (length (fst (snd (search_books db query page per_page))) <= Z.to_nat per_page)%nat.
Proof.
  intros Hpp. rewrite search_books_page_rows. cbn [fst snd].
  rewrite length_map. unfold page_rows, limit_offset.
  destruct (Z.ltb_spec per_page 0) as [Hneg|_]; [lia|].
  rewrite length_firstn. lia.
Qed.

(** X9.  No two entries of a page [search_books] returns have the same
    title. *)
Theorem search_books_titles_distinct (db : Database) (query : str) (page per_page : Z) :
  NoDup (map tuple_title (fst (snd (search_books db query page per_page)))).
Proof.
  rewrite search_books_page_rows. cbn [fst snd]. rewrite map_map.
  change (fun x => tuple_title (book_tuple x)) with title.
  unfold page_rows. rewrite limit_offset_map.
  apply limit_offset_NoDup, ranked_books_titles_unique.
Qed.

(** X10.  Every entry [search_books] returns is a row of the table whose
    title matches the pattern, and no row of the same title was added
    later. *)
Theorem search_books_latest_versions (db : Database) (query : str)
    (page per_page : Z) (r : BookTuple) :
  In r (fst (snd (search_books db query page per_page))) ->
  exists e,
    In e (ebooks db) /\ book_tuple e = r
    /\ sql_like (like_pattern query) (title e) = true
    /\ forall e', In e' (ebooks db) -> title e' = title e ->
                  (added_date e' <= added_date e)%Z.
Proof.
  rewrite search_books_page_rows. cbn [fst snd]. intros Hr.
  apply in_map_iff in Hr. destruct Hr as (e & <- & He).
  apply limit_offset_incl in He.
  exists e.
  destruct (ranked_books_latest _ _ _ e He
              ltac:(eapply ranked_books_incl; exact He) eq_refl)
    as (Hin & Hlike & _).
  split; [exact Hin|]. split; [reflexivity|]. split; [exact Hlike|].
  intros e' He' Ht.
  exact (proj2 (proj2 (ranked_books_latest _ _ _ e' He He' Ht))).
Qed.

(** X11.  The entries of a page are listed newest first: they are the
    columns of rows of the table, each the latest row of its title, and
    the dates of addition of these rows never go up along the page. *)
Theorem search_books_newest_first (db : Database) (query : str) (page per_page : Z) :
  exists rows,
    fst (snd (search_books db query page per_page)) = map book_tuple rows
    /\ Forall (fun e =>
                 In e (ebooks db)
                 /\ forall e', In e' (ebooks db) -> title e' = title e ->
                               (added_date e' <= added_date e)%Z) rows
    /\ StronglySorted (fun a b => (added_date b <= added_date a)%Z) rows.
Proof.
  exists (page_rows db query page per_page).
  rewrite search_books_page_rows. split; [reflexivity|]. split.
  - apply Forall_forall. intros e He. unfold page_rows in He.
    apply limit_offset_incl in He. split.
    + eapply ranked_books_incl; exact He.
    + intros e' He' Ht.
      exact (proj2 (proj2 (ranked_books_latest _ _ _ e' He He' Ht))).
  - apply (limit_offset_sorted (R := not_older)), ranked_books_sorted.
Qed.

Lemma firstn_plus (A : Type) (a b : nat) (l : list A) :
  firstn (a + b) l = firstn a l ++ firstn b (skipn a l).
Proof.
  revert l. induction a as [|a IH]; intros l; [reflexivity|].
  destruct l as [|x l]; simpl.
  - rewrite firstn_nil. reflexivity.
  - rewrite IH. reflexivity.
Qed.

Lemma page_rows_slice (db : Database) (query : str) (per_page : Z) (k : nat) :
  (0 < per_page)%Z ->
  page_rows db query (Z.of_nat (S k)) per_page
  = firstn (Z.to_nat per_page)
      (skipn (k * Z.to_nat per_page) (ranked_books db (like_pattern query))).
Proof.
  intros Hpp. unfold page_rows, limit_offset.
  destruct (Z.ltb_spec per_page 0) as [Hneg|_]; [lia|].
  replace (Z.to_nat ((Z.of_nat (S k) - 1) * per_page))
    with (k * Z.to_nat per_page)%nat by nia.
  reflexivity.
Qed.

(** X12.  With a positive page size, and as long as SQLite can bind the
    page size and the offset of page [n], the pages 1 to [n] put end to
    end are the first [n * per_page] rows of the ranking, in its order;
    once [n * per_page] reaches the number of ranked rows they are the
    whole ranking, every matching title once. *)
Theorem search_books_pages_tile (db : Database) (query : str) (per_page : Z) (n : nat) :
  (0 < per_page)%Z ->
  search_books_overflows (Z.of_nat n) per_page = false ->
  let visited :=
    flat_map (fun p => fst (snd (search_books db query (Z.of_nat p) per_page)))
      (seq 1 n) in
  visited = map book_tuple
              (firstn (n * Z.to_nat per_page) (ranked_books db (like_pattern query)))
  /\ ((length (ranked_books db (like_pattern query)) <= n * Z.to_nat per_page)%nat ->
      visited = map book_tuple (ranked_books db (like_pattern query))).
Proof.
  intros Hpp _. cbv zeta.
  assert (Htile :
    flat_map (fun p => fst (snd (search_books db query (Z.of_nat p) per_page)))
      (seq 1 n)
    = map book_tuple
        (firstn (n * Z.to_nat per_page) (ranked_books db (like_pattern query)))).
  { induction n as [|n IH]; [reflexivity|].
    rewrite seq_S, flat_map_app, IH. cbn [flat_map]. rewrite app_nil_r.
    change (1 + n)%nat with (S n).
    rewrite search_books_page_rows. cbn [fst snd].
    rewrite (page_rows_slice db query n Hpp), <- map_app, <- firstn_plus.
    f_equal. f_equal. lia. }
  split; [exact Htile|].
  intros Hall. rewrite Htile, firstn_all2 by exact Hall. reflexivity.
Qed.

Lemma page_rows_nonempty (db : Database) (query : str) (page : Z) :
  page_rows db query page 10 <> []
  <-> (Z.to_nat ((page - 1) * 10)
       < length (ranked_books db (like_pattern query)))%nat.
Proof.
  unfold page_rows, limit_offset. cbn [Z.ltb Z.compare].
  set (l := ranked_books db (like_pattern query)).
  set (off := Z.to_nat ((page - 1) * 10)).
  pose proof (length_skipn off l) as Hlen.
  destruct (skipn off l) as [|x rest] eqn:Es; simpl in Hlen.
  - split; [intros H; exfalso; apply H; reflexivity|lia].
  - split; [lia|]. intros _. change (Z.to_nat 10) with 10%nat. discriminate.
Qed.

(** X13.  As long as SQLite can bind the offsets of the page before and
    the page after: from a page of results that is not empty, the page
    before it is not empty, and when the page number is below the number
    of pages computed from the count returned, so that the next button is
    shown, the page after it is not empty either. *)
Theorem navigation_reaches_results (db : Database) (query : str) (page : Z) :
  search_books_overflows (page - 1) 10 = false ->
  search_books_overflows (page + 1) 10 = false ->
  let r := snd (search_books db query page 10) in
  fst r <> [] ->
  (fst (snd (search_books db query (page - 1) 10)) <> [])
  /\ ((page < total_pages_of (snd r))%Z ->
      fst (snd (search_books db query (page + 1) 10)) <> []).
Proof.
  intros _ _. cbv zeta. rewrite !search_books_page_rows. cbn [fst snd].
  intros Hne.
  assert (Hrows : page_rows db query page 10 <> []).
  { intros E0. apply Hne. rewrite E0. reflexivity. }
  destruct (page_rows db query page 10) as [|e rows] eqn:Ep; [congruence|].
  rewrite <- ranked_books_count.
  rewrite <- Ep in Hrows. apply page_rows_nonempty in Hrows.
  split.
  - intros E0. apply map_eq_nil in E0. revert E0.
    apply page_rows_nonempty. lia.
  - intros Hnext E0. apply map_eq_nil in E0. revert E0.
    apply page_rows_nonempty.
    set (T := length (ranked_books db (like_pattern query))) in *.
    pose proof (proj1 (total_pages_of_ceiling (Z.of_nat T) _) eq_refl) as Hc.
    lia.
Qed.
End SearchMore.

Lemma search_books_page_size_witness :
  (0 <= 10)%Z
  /\ (length (fst (snd (@search_books ascii_engine shelf_store (lit "vol") 1 10)))
      <= Z.to_nat 10)%nat.
Proof.
  assert (H : (0 <= 10)%Z) by lia.
  split; [exact H|].
  apply (@search_books_page_size ascii_engine shelf_store (lit "vol") 1 10 H).
Defined.

Lemma search_books_latest_versions_witness :
  exists e,
    In e (ebooks twin_store)
    /\ book_tuple e = (lit "X", 2%Z, (-1001234567890)%Z, lit "file-2")
    /\ @sql_like ascii_engine (like_pattern (lit "x")) (title e) = true
    /\ forall e', In e' (ebooks twin_store) -> title e' = title e ->
                  (added_date e' <= added_date e)%Z.
Proof.
  apply (@search_books_latest_versions ascii_engine twin_store (lit "x") 1 10
           (lit "X", 2%Z, (-1001234567890)%Z, lit "file-2")).
  left. reflexivity.
Defined.

Lemma search_books_pages_tile_witness :
  (0 < 10)%Z
  /\ search_books_overflows (Z.of_nat 3) 10 = false
  /\ flat_map
       (fun p => fst (snd (@search_books ascii_engine shelf_store (lit "vol")
                             (Z.of_nat p) 10)))
       (seq 1 3)
     = map book_tuple (@ranked_books ascii_engine shelf_store (like_pattern (lit "vol"))).
Proof.
  assert (H : (0 < 10)%Z) by lia.
  split; [exact H|]. split; [reflexivity|].
  apply (@search_books_pages_tile ascii_engine shelf_store (lit "vol") 10 3 H
           eq_refl).
  vm_compute. lia.
Defined.

Lemma navigation_reaches_results_witness :
  search_books_overflows (2 - 1) 10 = false
  /\ search_books_overflows (2 + 1) 10 = false
  /\ fst (snd (@search_books ascii_engine shelf_store (lit "vol") 2 10)) <> []
  /\ fst (snd (@search_books ascii_engine shelf_store (lit "vol") (2 - 1) 10)) <> []
  /\ fst (snd (@search_books ascii_engine shelf_store (lit "vol") (2 + 1) 10)) <> [].
Proof.
  assert (H : fst (snd (@search_books ascii_engine shelf_store (lit "vol") 2 10)) <> []).
  { vm_compute. intros E. discriminate E. }
  split; [reflexivity|]. split; [reflexivity|]. split; [exact H|].
  destruct (@navigation_reaches_results ascii_engine shelf_store (lit "vol") 2
              eq_refl eq_refl H) as [Hprev Hnext].
  split; [exact Hprev|]. apply Hnext. reflexivity.
Defined.

Section SearchHandlers.
Context {U : UnicodeDB} {E : SqlEngine}.

Lemma reply_first_page_store (db : Database) (query : str) (ads : list (str * str)) :
  fst (reply_first_page db query ads) = db.
Proof.
  unfold reply_first_page. rewrite search_books_unreconciled.
  destruct (limit_offset per_page_default ((1 - 1) * per_page_default)
              (ranked_books db (like_pattern query))) as [|e rows];
    cbv zeta beta iota;
    match goal with
    | |- context [format_search_results ?a ?b ?c ?d ?e] =>
        destruct (format_search_results a b c d e)
    end; reflexivity.
Qed.

(** X6.  No search changes the store: [search_books], the pagination
    callback, the search command and the text handler all return the store
    they were given. *)
Theorem search_handlers_never_write (db : Database) :
  (forall query page per_page, fst (search_books db query page per_page) = db)
  /\ (forall data ads, fst (handle_pagination db data ads) = db)
  /\ (forall args ads, fst (search_command db args ads) = db)
  /\ (forall text ads, fst (handle_text db text ads) = db).
Proof.
  split; [|split; [|split]].
  - intros. rewrite search_books_unreconciled. reflexivity.
  - intros data ads. unfold handle_pagination.
    destruct (decode_page_payload data) as [[page q]|]; [|reflexivity].
    destruct (search_books_overflows page per_page_default); [reflexivity|].
    rewrite search_books_unreconciled.
    destruct (limit_offset per_page_default ((page - 1) * per_page_default)
                (ranked_books db (like_pattern q))); reflexivity.
  - intros args ads. unfold search_command.
    destruct args as [|a args]; [reflexivity|].
    destruct (join [SPACE] (a :: args)) as [|c s]; [reflexivity|].
    apply reply_first_page_store.
  - intros text ads. unfold handle_text.
    destruct (strip text) as [|c s]; [reflexivity|].
    destruct (starts_with_slash (c :: s)); [reflexivity|].
    apply reply_first_page_store.
Qed.
End SearchHandlers.

(** ** Payloads and keyboards *)

Lemma break_at_some (sep : char) (s a r : str) :
  break_at sep s = (a, Some r) <-> s = a ++ sep :: r /\ ~ In sep a.
Proof.
  split.
  - revert a. induction s as [|c s IH]; intros a H; simpl in H; [discriminate|].
    destruct (N.eqb_spec c sep) as [->|Hne].
    + injection H as <- <-. split; [reflexivity|intros []].
    + destruct (break_at sep s) as [a' r'] eqn:Eb.
      injection H as <- ->. destruct (IH a' eq_refl) as [-> Hin].
      split; [reflexivity|]. intros [Hc|Hc]; [congruence|exact (Hin Hc)].
  - intros [-> Hin]. apply break_at_first; exact Hin.
Qed.

Section PayloadFacts.
Context {U : UnicodeDB}.

Lemma decode_page_payload_parts (data : str) (p : Z) (q : str) :
  decode_page_payload data = Some (p, q)
  <-> exists a b,
        data = a ++ UNDERSCORE :: b ++ UNDERSCORE :: q
        /\ ~ In UNDERSCORE a /\ ~ In UNDERSCORE b /\ py_int b = Some p.
Proof.
  unfold decode_page_payload. cbn [split_char]. split.
  - destruct (break_at UNDERSCORE data) as [a [r|]] eqn:Ea; [|discriminate].
    destruct (break_at UNDERSCORE r) as [b [r2|]] eqn:Eb; [|discriminate].
    apply break_at_some in Ea, Eb. destruct Ea as [-> Ha], Eb as [-> Hb].
    destruct (py_int b) as [p'|] eqn:Ei; [|discriminate].
    intros H. injection H as <- <-. exists a, b. repeat split; assumption.
  - intros (a & b & -> & Ha & Hb & Hi).
    rewrite !break_at_first by assumption. rewrite Hi. reflexivity.
Qed.

(** X14.  Among the callback data of at most 4300 characters, so that the
    cap interpreters put on the digits [int] converts is not reached, the
    ones [handle_pagination] can decode are exactly the strings with two
    underscores after two parts free of underscores, the second of which
    [int] reads; the page is that number and the query is everything after
    the second underscore, unchanged.  The first part is not looked at. *)
Theorem decode_page_payload_shape (data : str) (p : Z) (q : str) :
  (length data <= 4300)%nat ->
  decode_page_payload data = Some (p, q)
  <-> exists a b,
        data = a ++ UNDERSCORE :: b ++ UNDERSCORE :: q
        /\ ~ In UNDERSCORE a /\ ~ In UNDERSCORE b /\ py_int b = Some p.
Proof. intros _. apply decode_page_payload_parts. Qed.

(** X15.  Callback data with fewer than two underscores, such as the "noop"
    of the page indicator, take [handle_pagination] to its error reply and
    leave the store as it was. *)
Theorem handle_pagination_undecodable {E : SqlEngine} (db : Database)
    (data : str) (ads : list (str * str)) :
  (count_occ N.eq_dec data UNDERSCORE < 2)%nat ->
  handle_pagination db data ads = (db, None).
Proof.
  intros Hc. unfold handle_pagination.
  destruct (decode_page_payload data) as [[p q]|] eqn:Ed; [|reflexivity].
  apply decode_page_payload_parts in Ed.
  destruct Ed as (a & b & -> & _ & _ & _).
  rewrite count_occ_app in Hc. cbn [count_occ] in Hc.
  destruct (N.eq_dec UNDERSCORE UNDERSCORE); [|congruence].
  rewrite count_occ_app in Hc. cbn [count_occ] in Hc.
  destruct (N.eq_dec UNDERSCORE UNDERSCORE); [|congruence]. lia.
Qed.

Lemma decode_page_payload_built (p : Z) (q : str) :
  decode_page_payload (page_payload p q) = Some (p, q).
Proof.
  unfold decode_page_payload.
  rewrite split_page_payload, py_int_str_of_Z. reflexivity.
Qed.

(** X16.  In every keyboard [create_pagination_keyboard] builds, a callback
    button carries "noop" or a payload that decodes to the same query with
    the page before (only when the current page is above 1) or the page
    after (only when the current page is below the number of pages); and
    the first row has the previous button whenever the current page is
    above 1 and the next button whenever it is below the number of
    pages. *)
Theorem keyboard_buttons_decode (current_page total_pages : Z) (query : str)
    (ads : list (str * str)) :
  let keyboard := create_pagination_keyboard current_page total_pages query ads in
  (forall row text data,
      In row keyboard -> In (CallbackButton text data) row ->
      data = lit "noop"
      \/ ((1 < current_page)%Z
          /\ decode_page_payload data = Some ((current_page - 1)%Z, query))
      \/ ((current_page < total_pages)%Z
          /\ decode_page_payload data = Some ((current_page + 1)%Z, query)))
  /\ ((1 < current_page)%Z ->
      In (CallbackButton PREVIOUS_LABEL (page_payload (current_page - 1) query))
         (hd [] keyboard))
  /\ ((current_page < total_pages)%Z ->
      In (CallbackButton NEXT_LABEL (page_payload (current_page + 1) query))
         (hd [] keyboard)).
Proof.
  cbv zeta. unfold create_pagination_keyboard. cbn [hd].
  split; [|split].
  - intros row text data [<-|Hrow] Hb.
    + apply in_app_or in Hb. destruct Hb as [Hb|Hb].
      * destruct (Z.ltb_spec 1 current_page) as [H1|_]; [|contradiction].
        destruct Hb as [Hb|[]]. injection Hb as _ <-.
        right. left. split; [exact H1|apply decode_page_payload_built].
      * apply in_app_or in Hb. destruct Hb as [[Hb|[]]|Hb].
        -- injection Hb as _ <-. left. reflexivity.
        -- destruct (Z.ltb_spec current_page total_pages) as [H1|_];
             [|contradiction].
           destruct Hb as [Hb|[]]. injection Hb as _ <-.
           right. right. split; [exact H1|apply decode_page_payload_built].
    + apply in_map_iff in Hrow. destruct Hrow as (ad & <- & _).
      destruct Hb as [Hb|[]]. discriminate Hb.
  - intros H1. apply Z.ltb_lt in H1. rewrite H1. left. reflexivity.
  - intros H1. apply Z.ltb_lt in H1. rewrite H1.
    apply in_or_app. right. apply in_or_app. right. left. reflexivity.
Qed.
End PayloadFacts.

Lemma keyboard_buttons_decode_witness :
  In (CallbackButton NEXT_LABEL (page_payload 3 (lit "rust")))
     (hd [] (create_pagination_keyboard 2 3 (lit "rust") [])).
Proof.
  apply (@keyboard_buttons_decode ascii_db 2 3 (lit "rust") []).
  reflexivity.
Defined.

Lemma decode_page_payload_shape_witness :
  (length (lit "go_ 07 _a_b") <= 4300)%nat
  /\ @decode_page_payload ascii_db (lit "go_ 07 _a_b") = Some (7%Z, lit "a_b").
Proof.
  assert (H : (length (lit "go_ 07 _a_b") <= 4300)%nat) by (vm_compute; lia).
  split; [exact H|].
  apply (proj2 (@decode_page_payload_shape ascii_db (lit "go_ 07 _a_b") 7
                  (lit "a_b") H)).
  exists (lit "go"), (lit " 07 ").
  split; [reflexivity|].
  split; [vm_compute; intuition discriminate|].
  split; [vm_compute; intuition discriminate|reflexivity].
Defined.

Lemma handle_pagination_undecodable_witness :
  (count_occ N.eq_dec (lit "noop") UNDERSCORE < 2)%nat
  /\ @handle_pagination ascii_db ascii_engine one_book_store (lit "noop") []
     = (one_book_store, None).
Proof.
  assert (H : (count_occ N.eq_dec (lit "noop") UNDERSCORE < 2)%nat)
    by (vm_compute; lia).
  split; [exact H|].
  apply (@handle_pagination_undecodable ascii_db ascii_engine one_book_store
           (lit "noop") [] H).
Defined.

(** ** The advertisements under a page of results *)

(** X17.  Whatever order the engine draws, [get_active_advertisements]
    returns five advertisements, or all the active ones when they are
    fewer; the keyboard built with them has one row more than that, and
    each row after the first is a single link button of an active
    advertisement of the store. *)
Theorem advertisement_rows (db : Database) (sample : list (str * str))
    (current_page total_pages : Z) (query : str) :
  get_active_advertisements db sample ->
  let keyboard := create_pagination_keyboard current_page total_pages query sample in
  length sample = Nat.min 5 (length (filter is_active (advertisements db)))
  /\ length keyboard = S (length sample)
  /\ forall row, In row (tl keyboard) ->
       exists a, In a (advertisements db) /\ is_active a = true
                 /\ row = [UrlButton (ad_text a) (ad_url a)].
Proof.
  intros (shuffled & Hperm & ->). cbv zeta.
  unfold create_pagination_keyboard. cbn [tl length].
  rewrite !length_map, length_firstn, (Permutation_length Hperm).
  split; [reflexivity|]. split; [reflexivity|].
  intros row Hrow. apply in_map_iff in Hrow. destruct Hrow as (ad & <- & Had).
  apply in_map_iff in Had. destruct Had as (a & <- & Ha).
  exists a. cbn [fst snd].
  assert (Hin : In a (filter is_active (advertisements db))).
  { apply (Permutation_in _ Hperm).
    rewrite <- (firstn_skipn 5 shuffled). apply in_or_app. left; exact Ha. }
  apply filter_In in Hin. destruct Hin as [H1 H2].
  repeat split; assumption.
Qed.

Lemma advertisement_rows_witness :
  get_active_advertisements campaign_store campaign_sample
  /\ length campaign_sample = 5%nat
  /\ length (create_pagination_keyboard 1 3 (lit "rust") campaign_sample) = 6%nat
  /\ forall row,
       In row (tl (create_pagination_keyboard 1 3 (lit "rust") campaign_sample)) ->
       exists a, In a (advertisements campaign_store) /\ is_active a = true
                 /\ row = [UrlButton (ad_text a) (ad_url a)].
Proof.
  assert (H : get_active_advertisements campaign_store campaign_sample).
  { exists (rev (filter is_active (advertisements campaign_store))).
    split; [apply Permutation_sym, Permutation_rev|reflexivity]. }
  split; [exact H|].
  exact (@advertisement_rows campaign_store campaign_sample 1 3 (lit "rust") H).
Defined.

(** ** Uploads *)

Section UploadMore.
Context {U : UnicodeDB}.

(** The three ways an upload ends. *)
Lemma handle_document_cases (db : Database) (now : Z) (file_name : option str)
    (mid cid : Z) (fid : str) :
  (handle_document db now file_name mid cid fid = (db, NoFileName)
   /\ (file_name = None \/ file_name = Some []))
  \/ (exists name, file_name = Some name /\ name <> [] /\ supported name = false
      /\ handle_document db now file_name mid cid fid = (db, UnsupportedFormat))
  \/ (exists name m k f, file_name = Some name /\ name <> [] /\ supported name = true
      /\ check_book_exists db (clean_title name) = Some (clean_title name, m, k, f)
      /\ handle_document db now file_name mid cid fid
         = (db, AlreadyRecorded (clean_title name) k m))
  \/ (exists name, file_name = Some name /\ name <> [] /\ supported name = true
      /\ check_book_exists db (clean_title name) = None
      /\ handle_document db now file_name mid cid fid
         = (with_ebooks db
              (ebooks db ++ [new_row now (clean_title name) mid cid fid]),
            Recorded (clean_title name) cid mid)).
Proof.
  destruct file_name as [[|c name]|].
  - left. split; [reflexivity|right; reflexivity].
  - right. destruct (supported (c :: name)) eqn:Es.
    + right. destruct (check_book_exists db (clean_title (c :: name)))
        as [[[[t m] k] f]|] eqn:Ec.
      * left. exists (c :: name), m, k, f.
        pose proof (check_book_exists_scan db (clean_title (c :: name))) as Hs.
        rewrite Ec in Hs. destruct Hs as (pre & e & post & _ & Er & Ht & _).
        assert (t = clean_title (c :: name)) as ->
          by (injection Er as -> _ _ _; exact Ht).
        repeat split; try discriminate; try assumption.
        eapply handle_document_existing_title; [exact Es|exact Ec].
      * right. exists (c :: name).
        repeat split; try discriminate; try assumption.
        unfold handle_document. fold (supported (c :: name)). rewrite Es.
        cbn [negb]. rewrite Ec. unfold add_book. rewrite Ec. reflexivity.
    + left. exists (c :: name). repeat split; try discriminate; try assumption.
      unfold handle_document. fold (supported (c :: name)). rewrite Es.
      reflexivity.
  - left. split; [reflexivity|left; reflexivity].
Qed.

(** X18.  An upload never touches the advertisements, and either leaves
    the store as it was, with a reply other than the success one, or
    appends exactly one row, of the cleaned title and the message of the
    upload, when no row had that title, with the success reply. *)
Theorem handle_document_effect (db : Database) (now : Z) (file_name : option str)
    (mid cid : Z) (fid : str) :
  let db' := fst (handle_document db now file_name mid cid fid) in
  let reply := snd (handle_document db now file_name mid cid fid) in
  advertisements db' = advertisements db
  /\ ((db' = db /\ forall t c m, reply <> Recorded t c m)
      \/ exists name,
           file_name = Some name
           /\ check_book_exists db (clean_title name) = None
           /\ ebooks db' = ebooks db ++ [new_row now (clean_title name) mid cid fid]
           /\ reply = Recorded (clean_title name) cid mid).
Proof.
  cbv zeta.
  destruct (handle_document_cases db now file_name mid cid fid)
    as [[E _]|[(name & _ & _ & _ & E)|[(name & m & k & f & _ & _ & _ & _ & E)
       |(name & Hn & _ & _ & Hc & E)]]]; rewrite E; cbn [fst snd].
  - split; [reflexivity|]. left. split; [reflexivity|discriminate].
  - split; [reflexivity|]. left. split; [reflexivity|discriminate].
  - split; [reflexivity|]. left. split; [reflexivity|discriminate].
  - split; [reflexivity|]. right. exists name. repeat split; assumption.
Qed.

(** X19.  After the upload of a file with a supported extension, whatever
    its outcome, a second upload of the same file name writes nothing and
    is answered as already recorded under the cleaned title; when the
    title was new at the first upload the answer points at the message of
    the first upload. *)
Theorem handle_document_reupload (db : Database) (now now' : Z) (name : str)
    (mid cid mid' cid' : Z) (fid fid' : str) :
  name <> [] -> supported name = true ->
  let db1 := fst (handle_document db now (Some name) mid cid fid) in
  exists k m,
    handle_document db1 now' (Some name) mid' cid' fid'
    = (db1, AlreadyRecorded (clean_title name) k m)
    /\ (check_book_exists db (clean_title name) = None -> k = cid /\ m = mid).
Proof.
  intros Hne Hs. cbv zeta.
  assert (Hfound : exists m k f,
             check_book_exists
               (fst (handle_document db now (Some name) mid cid fid))
               (clean_title name) = Some (clean_title name, m, k, f)
             /\ (check_book_exists db (clean_title name) = None
                 -> k = cid /\ m = mid)).
  { destruct (handle_document_cases db now (Some name) mid cid fid)
      as [[_ [E|E]]|[(n & En & _ & Hs' & _)|[(n & m & k & f & En & _ & _ & Hc & E)
         |(n & En & _ & _ & Hc & E)]]].
    - discriminate E.
    - injection E as ->. congruence.
    - injection En as <-. congruence.
    - injection En as <-. rewrite E. cbn [fst]. exists m, k, f.
      split; [exact Hc|]. rewrite Hc. discriminate.
    - injection En as <-. rewrite E. cbn [fst]. exists mid, cid, fid.
      split; [|intros _; split; reflexivity].
      rewrite check_book_exists_app, Hc. unfold check_book_exists.
      cbn [ebooks with_ebooks find new_row title].
      rewrite (proj2 (str_eqb_eq _ _) eq_refl). reflexivity. }
  destruct Hfound as (m & k & f & Hc & Hfresh).
  exists k, m. split; [|exact Hfresh].
  destruct (handle_document_cases
              (fst (handle_document db now (Some name) mid cid fid))
              now' (Some name) mid' cid' fid')
    as [[_ [E|E]]|[(n & En & _ & Hs' & _)|[(n & m2 & k2 & f2 & En & _ & _ & Hc2 & E)
       |(n & En & _ & _ & Hc2 & _)]]].
  - discriminate E.
  - injection E as ->. congruence.
  - injection En as <-. congruence.
  - injection En as <-. rewrite Hc in Hc2. injection Hc2 as <- <- <-. exact E.
  - injection En as <-. congruence.
Qed.

(** X20.  Uploads keep the titles of the table pairwise different. *)
Theorem handle_document_keeps_titles_unique (db : Database) (now : Z)
    (file_name : option str) (mid cid : Z) (fid : str) :
  NoDup (map title (ebooks db)) ->
  NoDup (map title (ebooks (fst (handle_document db now file_name mid cid fid)))).
Proof.
  intros Hnd.
  destruct (handle_document_cases db now file_name mid cid fid)
    as [[E _]|[(name & _ & _ & _ & E)|[(name & m & k & f & _ & _ & _ & _ & E)
       |(name & Hn & _ & _ & Hc & E)]]]; rewrite E; cbn [fst]; try exact Hnd.
  pose proof (add_book_keeps_unique db now (clean_title name) mid cid fid Hnd) as H.
  unfold add_book in H. rewrite Hc in H. exact H.
Qed.
End UploadMore.

Lemma handle_document_reupload_witness :
  exists k m,
    @handle_document ascii_db
      (fst (@handle_document ascii_db one_book_store 1700000100
              (Some (lit "Go Book.epub")) 8 (-1001234567890) (lit "file-8")))
      1700000200 (Some (lit "Go Book.epub")) 9 (-1001234567890) (lit "file-9")
    = (fst (@handle_document ascii_db one_book_store 1700000100
              (Some (lit "Go Book.epub")) 8 (-1001234567890) (lit "file-8")),
       AlreadyRecorded (@clean_title ascii_db (lit "Go Book.epub")) k m)
    /\ (check_book_exists one_book_store (@clean_title ascii_db (lit "Go Book.epub"))
        = None -> k = (-1001234567890)%Z /\ m = 8%Z).
Proof.
  apply (@handle_document_reupload ascii_db one_book_store 1700000100 1700000200
           (lit "Go Book.epub") 8 (-1001234567890) 9 (-1001234567890)
           (lit "file-8") (lit "file-9")).
  - vm_compute. intros E. discriminate E.
  - reflexivity.
Defined.

Lemma handle_document_keeps_titles_unique_witness :
  NoDup (map title (ebooks one_book_store))
  /\ NoDup (map title
              (ebooks (fst (@handle_document ascii_db one_book_store 1700000100
                              (Some (lit "Go Book.epub")) 8 (-1001234567890)
                              (lit "file-8"))))).
Proof.
  assert (H : NoDup (map title (ebooks one_book_store))).
  { constructor; [intros []|constructor]. }
  split; [exact H|].
  apply (@handle_document_keeps_titles_unique ascii_db one_book_store 1700000100
           (Some (lit "Go Book.epub")) 8 (-1001234567890) (lit "file-8") H).
Defined.

(** ** Advertisements *)

Lemma remove_advertisement_rows (db : Database) (id : Z) :
  advertisements (fst (remove_advertisement db id))
  = map (deactivate id) (advertisements db).
Proof. reflexivity. Qed.

Lemma edit_advertisement_rows (db : Database) (id : Z) (text url : str) :
  advertisements (fst (edit_advertisement db id text url))
  = map (rewrite_ad id text url) (advertisements db).
Proof. reflexivity. Qed.

Lemma find_map_none (A : Type) (f : A -> bool) (g : A -> A) (l : list A) :
  (forall x, In x l -> f (g x) = false) -> find f (map g l) = None.
Proof.
  induction l as [|x l IH]; intros H; simpl; [reflexivity|].
  rewrite (H x (or_introl eq_refl)). apply IH. intros y Hy. apply H. right; exact Hy.
Qed.

Lemma find_active_none (id : Z) (ads : list Advertisement) :
  find (active_with_id id) ads = None
  <-> filter (active_with_id id) ads = [].
Proof.
  induction ads as [|a ads IH]; simpl; [tauto|].
  destruct (active_with_id id a); [split; discriminate|exact IH].
Qed.

Lemma deactivate_inactive (id : Z) (a : Advertisement) :
  active_with_id id (deactivate id a) = false.
Proof.
  unfold deactivate, active_with_id.
  destruct (Z.eqb_spec (ad_id a) id) as [E|E]; cbn [ad_id is_active].
  - apply andb_false_r.
  - apply Z.eqb_neq in E. rewrite E. reflexivity.
Qed.

Lemma deactivate_other (id id' : Z) (a : Advertisement) :
  id' <> id -> active_with_id id' (deactivate id a) = active_with_id id' a
               /\ (active_with_id id' a = true -> deactivate id a = a).
Proof.
  intros Hne. unfold deactivate, active_with_id.
  destruct (Z.eqb_spec (ad_id a) id) as [E|E]; cbn [ad_id is_active];
    [|split; reflexivity].
  assert (H : (ad_id a =? id')%Z = false) by (apply Z.eqb_neq; congruence).
  rewrite H. split; [reflexivity|discriminate].
Qed.

Lemma find_map_same (A : Type) (f : A -> bool) (g : A -> A) (l : list A) :
  (forall x, In x l -> f (g x) = f x /\ (f x = true -> g x = x)) ->
  find f (map g l) = find f l.
Proof.
  induction l as [|x l IH]; intros H; simpl; [reflexivity|].
  destruct (H x (or_introl eq_refl)) as [H1 H2]. rewrite H1.
  destruct (f x); [rewrite H2; reflexivity|].
  apply IH. intros y Hy. apply H. right; exact Hy.
Qed.

Lemma filter_none (A : Type) (f : A -> bool) (l : list A) :
  (forall x, In x l -> f x = false) -> filter f l = [].
Proof.
  induction l as [|x l IH]; intros H; simpl; [reflexivity|].
  rewrite (H x (or_introl eq_refl)). apply IH. intros y Hy. apply H. right; exact Hy.
Qed.

Lemma insert_by_id_perm (a : Advertisement) (l : list Advertisement) :
  Permutation (insert_by_id a l) (a :: l).
Proof.
  induction l as [|x l IH]; simpl; [reflexivity|].
  destruct (ad_id a <=? ad_id x)%Z; [reflexivity|].
  rewrite IH. apply perm_swap.
Qed.

Lemma order_by_id_perm (l : list Advertisement) : Permutation (order_by_id l) l.
Proof.
  induction l as [|x l IH]; simpl; [reflexivity|].
  rewrite insert_by_id_perm. constructor. exact IH.
Qed.

Lemma list_advertisements_In (db : Database) (x : Z * str * str) :
  In x (list_advertisements db)
  <-> exists a, In a (advertisements db) /\ is_active a = true /\ ad_columns a = x.
Proof.
  unfold list_advertisements. rewrite in_map_iff. split.
  - intros (a & Ex & Ha). apply (Permutation_in _ (order_by_id_perm _)) in Ha.
    apply filter_In in Ha. exists a. tauto.
  - intros (a & Ha & Hact & Ex). exists a. split; [exact Ex|].
    apply (Permutation_in _ (Permutation_sym (order_by_id_perm _))).
    apply filter_In. tauto.
Qed.

Lemma with_advertisements_same (db : Database) :
  with_advertisements db (advertisements db) = db.
Proof. destruct db; reflexivity. Qed.

Lemma edit_advertisement_absent (db : Database) (id : Z) (text url : str) :
  (forall a, In a (advertisements db) -> active_with_id id a = false) ->
  edit_advertisement db id text url = (db, false).
Proof.
  intros Hnone. unfold edit_advertisement.
  rewrite (filter_none _ _ Hnone). cbn [length Z.of_nat Z.ltb Z.compare].
  f_equal. transitivity (with_advertisements db (advertisements db));
    [|apply with_advertisements_same].
  f_equal. transitivity (map (fun a => a) (advertisements db));
    [|apply map_id].
  apply map_ext_in. intros a Ha. rewrite (Hnone a Ha). reflexivity.
Qed.


Lemma get_advertisement_removed (db : Database) (id : Z) :
  get_advertisement (fst (remove_advertisement db id)) id = None.
Proof.
  unfold get_advertisement. rewrite remove_advertisement_rows.
  rewrite find_map_none; [reflexivity|]. intros; apply deactivate_inactive.
Qed.


Lemma remove_advertisement_store (db : Database) (id : Z) :
  fst (remove_advertisement db id)
  = with_advertisements db (map (deactivate id) (advertisements db)).
Proof. reflexivity. Qed.

(** X25.  [remove_advertisement] is a soft delete: it leaves the books
    alone, keeps every row with its id, text and url, does not change what
    [get_advertisement] returns for any other id, and done twice gives the
    store it gives done once. *)
Theorem remove_advertisement_frame (db : Database) (id : Z) :
  let db1 := fst (remove_advertisement db id) in
  ebooks db1 = ebooks db
  /\ map ad_columns (advertisements db1) = map ad_columns (advertisements db)
  /\ (forall id', id' <> id -> get_advertisement db1 id' = get_advertisement db id')
  /\ fst (remove_advertisement db1 id) = db1.
Proof.
  cbv zeta. split; [reflexivity|]. split; [|split].
  - rewrite remove_advertisement_rows, map_map. apply map_ext.
    intros a. unfold deactivate, ad_columns.
    destruct (ad_id a =? id)%Z; reflexivity.
  - intros id' Hne. unfold get_advertisement. rewrite remove_advertisement_rows.
    rewrite find_map_same; [reflexivity|].
    intros a _. apply deactivate_other; exact Hne.
  - rewrite !remove_advertisement_store. unfold with_advertisements.
    cbn [ebooks advertisements]. f_equal. rewrite map_map. apply map_ext.
    intros a. unfold deactivate.
    destruct (Z.eqb_spec (ad_id a) id) as [E|E]; cbn [ad_id ad_text ad_url].
    + rewrite (proj2 (Z.eqb_eq _ _) E). reflexivity.
    + rewrite (proj2 (Z.eqb_neq _ _) E). reflexivity.
Qed.

Lemma rewrite_ad_active (id : Z) (text url : str) (a : Advertisement) :
  active_with_id id (rewrite_ad id text url a) = active_with_id id a.
Proof.
  unfold rewrite_ad. destruct (active_with_id id a) eqn:Ea; [|exact Ea].
  unfold active_with_id in *. exact Ea.
Qed.

Lemma find_map_first (A : Type) (f : A -> bool) (g : A -> A) (l : list A) :
  (forall x, f (g x) = f x) -> find f (map g l) = option_map g (find f l).
Proof.
  intros H. induction l as [|x l IH]; simpl; [reflexivity|].
  rewrite H. destruct (f x); [reflexivity|exact IH].
Qed.

(** X26.  [edit_advertisement] returns [True] exactly when
    [get_advertisement] finds the id; when it returns [False] the store is
    unchanged; when it returns [True] the advertisement is afterwards read
    back with the new text and url; in both cases the books, the ids and
    the active flags are as before. *)
Theorem edit_advertisement_effect (db : Database) (id : Z) (text url : str) :
  let db' := fst (edit_advertisement db id text url) in
  let ok := snd (edit_advertisement db id text url) in
  (ok = true <-> get_advertisement db id <> None)
  /\ (ok = false -> db' = db)
  /\ (ok = true -> get_advertisement db' id = Some (id, text, url))
  /\ ebooks db' = ebooks db
  /\ map ad_id (advertisements db') = map ad_id (advertisements db)
  /\ map is_active (advertisements db') = map is_active (advertisements db).
Proof.
  cbv zeta.
  assert (Hok : snd (edit_advertisement db id text url) = true
                <-> get_advertisement db id <> None).
  { unfold edit_advertisement, get_advertisement. cbn [snd].
    pose proof (find_active_none id (advertisements db)) as Hn.
    destruct (filter (active_with_id id) (advertisements db)) as [|a l].
    - rewrite (proj2 Hn eq_refl). simpl. split; [discriminate|congruence].
    - destruct (find (active_with_id id) (advertisements db)) as [a0|].
      + simpl. split; [discriminate|]. intros _. apply Z.ltb_lt. lia.
      + destruct Hn as [Hn _]. discriminate (Hn eq_refl). }
  split; [exact Hok|]. split; [|split; [|split; [|split]]].
  - intros Hfalse.
    assert (Hnone : get_advertisement db id = None).
    { destruct (get_advertisement db id) eqn:Eg; [|reflexivity].
      assert (Ht : snd (edit_advertisement db id text url) = true)
        by (apply Hok; discriminate).
      congruence. }
    rewrite edit_advertisement_absent; [reflexivity|].
    unfold get_advertisement in Hnone.
    destruct (find (active_with_id id) (advertisements db)) eqn:Ef;
      [discriminate|].
    exact (find_none _ _ Ef).
  - intros Htrue. apply Hok in Htrue. unfold get_advertisement in *.
    rewrite edit_advertisement_rows.
    rewrite find_map_first by (intros; apply rewrite_ad_active).
    destruct (find (active_with_id id) (advertisements db)) as [a|] eqn:Ef;
      [|exfalso; apply Htrue; reflexivity].
    apply find_some in Ef. destruct Ef as [_ Ea]. cbn [option_map].
    unfold rewrite_ad. rewrite Ea. cbn [ad_id ad_text ad_url].
    unfold active_with_id in Ea. apply andb_true_iff in Ea.
    destruct Ea as [Ea _]. apply Z.eqb_eq in Ea. rewrite Ea. reflexivity.
  - reflexivity.
  - rewrite edit_advertisement_rows, map_map. apply map_ext. intros a.
    unfold rewrite_ad. destruct (active_with_id id a); reflexivity.
  - rewrite edit_advertisement_rows, map_map. apply map_ext. intros a.
    unfold rewrite_ad. destruct (active_with_id id a); reflexivity.
Qed.

Lemma fold_max_bound (ids : list Z) (x : Z) :
  In x ids -> (x <= fold_right Z.max 0 ids)%Z.
Proof.
  induction ids as [|y ids IH]; intros H; [contradiction|].
  simpl. destruct H as [->|H]; [lia|]. specialize (IH H). lia.
Qed.

Lemma next_advertisement_id_fresh (db : Database) (a : Advertisement) :
  In a (advertisements db) -> (ad_id a < next_advertisement_id db)%Z.
Proof.
  intros Ha. unfold next_advertisement_id.
  pose proof (@fold_max_bound (map ad_id (advertisements db)) (ad_id a)
                (in_map ad_id _ _ Ha)). lia.
Qed.

Lemma add_advertisement_listed (db : Database) (text url : str) :
  In (next_advertisement_id db, text, url)
     (list_advertisements (fst (add_advertisement db text url))).
Proof.
  apply list_advertisements_In.
  exists {| ad_id := next_advertisement_id db; ad_text := text;
            ad_url := url; is_active := true |}.
  cbn [add_advertisement fst advertisements with_advertisements].
  split; [|split; reflexivity].
  apply in_or_app. right. left. reflexivity.
Qed.

(** X23.  [add_advertisement] returns [True] and gives the new
    advertisement an id above every id of the table; the advertisement is
    then read back by [get_advertisement] under that id and listed by
    [list_advertisements], every other id reads as before, and the books
    are untouched. *)
Theorem add_advertisement_fresh (db : Database) (text url : str) :
  let db' := fst (add_advertisement db text url) in
  let id := next_advertisement_id db in
  snd (add_advertisement db text url) = true
  /\ (forall a, In a (advertisements db) -> (ad_id a < id)%Z)
  /\ get_advertisement db' id = Some (id, text, url)
  /\ (forall id', id' <> id -> get_advertisement db' id' = get_advertisement db id')
  /\ In (id, text, url) (list_advertisements db')
  /\ ebooks db' = ebooks db.
Proof.
  cbv zeta. split; [reflexivity|]. split; [apply next_advertisement_id_fresh|].
  unfold add_advertisement. cbn [fst]. unfold get_advertisement.
  cbn [advertisements with_advertisements].
  split; [|split; [|split; [|reflexivity]]].
  - rewrite find_app_none.
    + simpl. unfold active_with_id. cbn [ad_id is_active].
      rewrite Z.eqb_refl. reflexivity.
    + destruct (find (active_with_id (next_advertisement_id db))
                  (advertisements db)) as [a|] eqn:Ef; [|reflexivity].
      apply find_some in Ef. destruct Ef as [Ha Ea].
      pose proof (next_advertisement_id_fresh db a Ha) as Hlt.
      unfold active_with_id in Ea. apply andb_true_iff in Ea.
      destruct Ea as [Ea _]. apply Z.eqb_eq in Ea. lia.
  - intros id' Hne.
    destruct (find (active_with_id id') (advertisements db)) as [a|] eqn:Ef.
    + rewrite (find_app_some _ _ _ Ef). reflexivity.
    + rewrite (find_app_none _ _ _ Ef). simpl. unfold active_with_id.
      cbn [ad_id is_active].
      rewrite (proj2 (Z.eqb_neq _ _) (not_eq_sym Hne)). reflexivity.
  - apply list_advertisements_In.
    exists {| ad_id := next_advertisement_id db; ad_text := text;
              ad_url := url; is_active := true |}.
    cbn [advertisements with_advertisements]. split; [|split; reflexivity].
    apply in_or_app. right. left. reflexivity.
Qed.

Lemma insert_by_id_sorted (a : Advertisement) (l : list Advertisement) :
  StronglySorted (fun x y => (ad_id x <= ad_id y)%Z) l ->
  StronglySorted (fun x y => (ad_id x <= ad_id y)%Z) (insert_by_id a l).
Proof.
  induction 1 as [|x l Hl IH Hx]; simpl.
  - constructor; constructor.
  - destruct (Z.leb_spec (ad_id a) (ad_id x)) as [Hle|Hgt].
    + constructor; [constructor; assumption|].
      constructor; [exact Hle|].
      eapply Forall_impl; [|exact Hx]. cbv beta. intros y Hy. lia.
    + constructor; [exact IH|].
      apply Forall_forall. intros y Hy.
      apply (Permutation_in _ (insert_by_id_perm a l)) in Hy.
      destruct Hy as [<-|Hy]; [lia|].
      rewrite Forall_forall in Hx. exact (Hx _ Hy).
Qed.

(** X27.  [list_advertisements] returns the active advertisements, each
    with its id, text and url, all of them and nothing else, in ascending
    order of id. *)
Theorem list_advertisements_sorted_active (db : Database) :
  StronglySorted (fun x y => (fst (fst x) <= fst (fst y))%Z) (list_advertisements db)
  /\ (forall x, In x (list_advertisements db)
                <-> exists a, In a (advertisements db) /\ is_active a = true
                              /\ ad_columns a = x)
  /\ length (list_advertisements db)
     = length (filter is_active (advertisements db)).
Proof.
  split; [|split].
  - unfold list_advertisements.
    assert (Hs : StronglySorted (fun x y => (ad_id x <= ad_id y)%Z)
                   (order_by_id (filter is_active (advertisements db)))).
    { induction (filter is_active (advertisements db)) as [|a l IH];
        simpl; [constructor|apply insert_by_id_sorted; exact IH]. }
    induction Hs as [|a l Hl IH Ha]; simpl; constructor; [exact IH|].
    apply Forall_forall. intros x Hx. apply in_map_iff in Hx.
    destruct Hx as (b & <- & Hb). rewrite Forall_forall in Ha.
    exact (Ha _ Hb).
  - apply list_advertisements_In.
  - unfold list_advertisements. rewrite length_map.
    apply Permutation_length, order_by_id_perm.
Qed.

(** ** The advertisement commands *)

Section CommandFacts.
Context {U : UnicodeDB}.
Variable ADMIN_IDS : list Z.
Variable int_of : str -> option Z.

(** X28.  For a user who is not in the list of administrators, the four
    advertisement commands answer that the command is for administrators
    only and leave the store as it was, whatever the arguments. *)
Theorem advertisement_commands_admin_only (db : Database) (user_id : Z)
    (args : list str) :
  is_admin ADMIN_IDS user_id = false ->
  add_advertisement_command ADMIN_IDS db user_id args = (db, AdminOnly)
  /\ remove_advertisement_command ADMIN_IDS int_of db user_id args = (db, AdminOnly)
  /\ edit_advertisement_command ADMIN_IDS int_of db user_id args = (db, AdminOnly)
  /\ list_advertisements_command ADMIN_IDS db user_id = (db, AdminOnly).
Proof.
  intros Hno.
  unfold add_advertisement_command, remove_advertisement_command,
    edit_advertisement_command, list_advertisements_command.
  rewrite Hno. repeat split.
Qed.

(** X29.  No advertisement command, for any user and any arguments, changes
    the table of books; the listing command changes nothing at all. *)
Theorem advertisement_commands_keep_catalogue (db : Database) (user_id : Z)
    (args : list str) :
  ebooks (fst (add_advertisement_command ADMIN_IDS db user_id args)) = ebooks db
  /\ ebooks (fst (remove_advertisement_command ADMIN_IDS int_of db user_id args))
     = ebooks db
  /\ ebooks (fst (edit_advertisement_command ADMIN_IDS int_of db user_id args))
     = ebooks db
  /\ fst (list_advertisements_command ADMIN_IDS db user_id) = db.
Proof.
  unfold add_advertisement_command, remove_advertisement_command,
    edit_advertisement_command, list_advertisements_command.
  destruct (is_admin ADMIN_IDS user_id); cbn [negb];
    [|repeat split; reflexivity].
  split; [|split; [|split]].
  - destruct (length args <? 2)%nat; reflexivity.
  - destruct args as [|first rest]; [reflexivity|].
    destruct (int_of first); reflexivity.
  - destruct (length args <? 3)%nat; [reflexivity|].
    destruct (int_of (hd [] args)) as [id|]; [|reflexivity].
    destruct (get_advertisement db id); reflexivity.
  - destruct (list_advertisements db); reflexivity.
Qed.

(** X30.  For an administrator, the add command with at least two
    arguments records the words before the last, joined by single spaces,
    as the text and the last word as the url, and the listing command run
    next shows that advertisement under its new id. *)
Theorem addad_then_listad (db : Database) (user_id : Z) (args : list str) :
  is_admin ADMIN_IDS user_id = true -> (2 <= length args)%nat ->
  let text := join [SPACE] (all_but_last args) in
  let url := last args [] in
  let r := add_advertisement_command ADMIN_IDS db user_id args in
  snd r = AdAdded text url
  /\ exists ads,
       list_advertisements_command ADMIN_IDS (fst r) user_id = (fst r, AdListing ads)
       /\ In (next_advertisement_id db, text, url) ads.
Proof.
  intros Hadm Hlen. cbv zeta.
  unfold add_advertisement_command, list_advertisements_command.
  rewrite Hadm. cbn [negb].
  destruct (Nat.ltb_spec (length args) 2) as [Hlt|_]; [lia|].
  cbn [add_advertisement fst snd]. split; [reflexivity|].
  pose proof (add_advertisement_listed db (join [SPACE] (all_but_last args))
                (last args [])) as Hin.
  cbn [add_advertisement fst] in Hin.
  destruct (list_advertisements _) as [|x l] eqn:El; [contradiction|].
  exists (x :: l). split; [reflexivity|exact Hin].
Qed.
End CommandFacts.

Lemma advertisement_commands_admin_only_witness :
  is_admin [42%Z] 7 = false
  /\ remove_advertisement_command [42%Z] (@py_int ascii_db) retired_ad_store 7
       [lit "1"]
     = (retired_ad_store, AdminOnly).
Proof.
  split; [reflexivity|].
  apply (@advertisement_commands_admin_only [42%Z] (@py_int ascii_db)
           retired_ad_store 7 [lit "1"]).
  reflexivity.
Defined.

Lemma addad_then_listad_witness :
  snd (add_advertisement_command [42%Z] retired_ad_store 42
         [lit "Join"; lit "us"; lit "https://t.me/x"])
  = AdAdded (lit "Join us") (lit "https://t.me/x").
Proof.
  apply (@addad_then_listad [42%Z] retired_ad_store 42
           [lit "Join"; lit "us"; lit "https://t.me/x"]).
  - reflexivity.
  - simpl. lia.
Defined.

(** ** More on clean_title *)

Section CleanTitleMore.
Context {U : UnicodeDB}.

Lemma match_literal_length (pat s rest : str) :
  match_literal pat s = Some rest -> (length rest <= length s)%nat.
Proof.
  revert s. induction pat as [|p pat IH]; intros s H; simpl in H.
  - injection H as <-. lia.
  - destruct s as [|c s]; [discriminate|].
    destruct (sre_ci_eq p c); [|discriminate].
    specialize (IH _ H). simpl. lia.
Qed.

Lemma match_alternatives_length (alts : list str) (s rest : str) :
  match_alternatives alts s = Some rest -> (length rest <= length s)%nat.
Proof.
  induction alts as [|a alts IH]; intros H; simpl in H; [discriminate|].
  destruct (match_literal a s) as [r|] eqn:El; [|exact (IH H)].
  destruct (at_end r); [|exact (IH H)].
  injection H as <-. exact (match_literal_length _ _ El).
Qed.

Lemma strip_extension_length (s : str) :
  (length (strip_extension s) <= length s)%nat.
Proof.
  induction s as [|c s IH]; [reflexivity|].
  cbn [strip_extension].
  destruct (match_extension (c :: s)) as [rest|] eqn:Em.
  - unfold match_extension in Em. destruct (c =? DOT)%N; [|discriminate].
    apply match_alternatives_length in Em. simpl. lia.
  - simpl. lia.
Qed.

Lemma join_cons_char (c : char) (w : str) (ws : list str) :
  join [SPACE] ((c :: w) :: ws) = c :: join [SPACE] (w :: ws).
Proof. destruct ws; reflexivity. Qed.

Lemma split_join_length (s : str) :
  (length (join [SPACE] (split_whitespace s)) <= length s)%nat
  /\ (forall c s', s = c :: s' -> py_isspace c = true ->
        (length (join [SPACE] (split_whitespace s)) < length s)%nat).
Proof.
  induction s as [|c s IH]; [split; [reflexivity|discriminate]|].
  destruct IH as [IH1 IH2].
  assert (Hmain :
    (if py_isspace c
     then length (join [SPACE] (split_whitespace (c :: s))) < length (c :: s)
     else length (join [SPACE] (split_whitespace (c :: s))) <= length (c :: s))%nat).
  { cbn [split_whitespace]. destruct (py_isspace c) eqn:Ec.
    - simpl length. lia.
    - destruct s as [|d s']; [simpl; lia|].
      destruct (py_isspace d) eqn:Ed.
      + specialize (IH2 d s' eq_refl Ed).
        destruct (split_whitespace (d :: s')) as [|w ws]; [simpl; lia|].
        change (join [SPACE] ([c] :: w :: ws))
          with (c :: SPACE :: join [SPACE] (w :: ws)).
        simpl length in *. lia.
      + destruct (split_whitespace (d :: s')) as [|w ws]; [simpl; lia|].
        rewrite join_cons_char. simpl length in *. lia. }
  split.
  - destruct (py_isspace c); lia.
  - intros c0 s0 E Hc. injection E as <- <-. rewrite Hc in Hmain. exact Hmain.
Qed.

(** X21.  A cleaned title is never longer than the file name it was
    computed from. *)
Theorem clean_title_length (x : str) :
  (length (clean_title x) <= length x)%nat.
Proof.
  unfold clean_title.
  pose proof (proj1 (split_join_length (replace_special (strip_extension x)))) as H.
  unfold replace_special in H at 2. rewrite length_map in H.
  pose proof (strip_extension_length x). lia.
Qed.

Hypothesis space_is_whitespace : py_isspace SPACE = true.
Hypothesis dot_is_not_alphanumeric : py_isalnum DOT = false.

Lemma clean_title_fixed (x : str) : clean_title (clean_title x) = clean_title x.
Proof.
  unfold clean_title.
  pose proof (clean_title_words space_is_whitespace x) as Hws.
  set (ws := split_whitespace (replace_special (strip_extension x))) in *.
  rewrite strip_extension_no_dot by (eapply join_no_dot; eassumption).
  rewrite replace_special_fixed by (eapply join_keeps; eassumption).
  erewrite split_whitespace_join; [reflexivity|eassumption..].
Qed.

(** X22.  Uploads keep every stored title in normal form: when each title
    of the table is left unchanged by [clean_title], so is each title of the
    table after [handle_document]. *)
Theorem handle_document_stores_clean_titles (db : Database) (now : Z)
    (file_name : option str) (mid cid : Z) (fid : str) :
  Forall (fun e => clean_title (title e) = title e) (ebooks db) ->
  Forall (fun e => clean_title (title e) = title e)
    (ebooks (fst (handle_document db now file_name mid cid fid))).
Proof.
  intros Hall.
  destruct (handle_document_cases db now file_name mid cid fid)
    as [[E _]|[(name & _ & _ & _ & E)|[(name & m & k & f & _ & _ & _ & _ & E)
       |(name & Hn & _ & _ & Hc & E)]]]; rewrite E; cbn [fst]; try exact Hall.
  cbn [ebooks with_ebooks]. apply Forall_app. split; [exact Hall|].
  constructor; [|constructor]. cbn [new_row title]. apply clean_title_fixed.
Qed.
End CleanTitleMore.

Lemma handle_document_stores_clean_titles_witness :
  Forall (fun e => @clean_title ascii_db (title e) = title e)
    (ebooks (fst (@handle_document ascii_db one_book_store 1700000100
                    (Some (lit "Go: Book!.epub")) 8 (-1001234567890) (lit "file-8")))).
Proof.
  apply (@handle_document_stores_clean_titles ascii_db eq_refl eq_refl).
  constructor; [reflexivity|constructor].
Defined.

